(** * news-scraper: the extraction engine of [scraper.js], embedded in Rocq

    The development follows the JavaScript source function by function.
    JavaScript strings are modelled as Rocq [string]s whose characters are
    the UTF-16 code units below 256 (the Latin-1 range), so that
    [String.length] is the JavaScript [length].  A promise that settles is an
    [Outcome]: [Fulfilled v] or [Rejected e]; [await] on a rejected promise
    and a synchronous [throw] are both the [Rejected] case. *)

From Stdlib Require Import String Ascii List ZArith Lia Bool Arith.
From Stdlib Require Import Permutation Sorted.
Import ListNotations.
Open Scope string_scope.
Open Scope list_scope.
Open Scope nat_scope.

Set Warnings "-register-all".
Set Warnings "-notation-overridden".


(* ================================================================== *)
(** * Part I: definitions                                              *)
(* ================================================================== *)

(** ** JavaScript string primitives used by the scraper *)

Module JsString.

Definition isEmpty (s : string) : bool :=
  match s with EmptyString => true | String _ _ => false end.

(** A–Z and the Latin-1 capitals À–Þ (× excepted) have a lower case
    32 code units above.  On strings of Latin-1 code units
    [String.prototype.toLowerCase] maps each code unit on its own, which is
    [toLowerCase] below; outside that range it does not (the final sigma,
    U+0130).  The theorems about [scrapeNews] use [toLowerCase] only as the
    function the code applies to the keyword and to the fields, never
    through its acting on each character by itself. *)
Definition isUpper (c : ascii) : bool :=
  let n := nat_of_ascii c in
  ((65 <=? n) && (n <=? 90))
  || ((192 <=? n) && (n <=? 222) && negb (n =? 215)).

Definition lowerChar (c : ascii) : ascii :=
  if isUpper c then ascii_of_nat (nat_of_ascii c + 32) else c.

Fixpoint toLowerCase (s : string) : string :=
  match s with
  | EmptyString => EmptyString
  | String c s' => String (lowerChar c) (toLowerCase s')
  end.

(** [s.startsWith(p)] *)
Fixpoint startsWith (s p : string) {struct p} : bool :=
  match p with
  | EmptyString => true
  | String a p' =>
      match s with
      | EmptyString => false
      | String b s' => Ascii.eqb a b && startsWith s' p'
      end
  end.

(** [s.includes(sub)] *)
Fixpoint includes (s sub : string) : bool :=
  startsWith s sub
  || match s with
     | EmptyString => false
     | String _ s' => includes s' sub
     end.

(** White space and line terminators of ECMAScript within Latin-1:
    TAB, LF, VT, FF, CR, SP and NBSP. *)
Definition isSpace (c : ascii) : bool :=
  let n := nat_of_ascii c in
  ((9 <=? n) && (n <=? 13)) || (n =? 32) || (n =? 160).

Fixpoint trimStart (s : string) : string :=
  match s with
  | EmptyString => EmptyString
  | String c s' => if isSpace c then trimStart s' else s
  end.

Fixpoint trimEnd (s : string) : string :=
  match s with
  | EmptyString => EmptyString
  | String c s' =>
      let t := trimEnd s' in
      if isSpace c && isEmpty t then EmptyString else String c t
  end.

Definition trim (s : string) : string := trimEnd (trimStart s).

Definition isDigit (c : ascii) : bool :=
  let n := nat_of_ascii c in (48 <=? n) && (n <=? 57).

End JsString.
Import JsString.

(** ** The fragment of regular expressions that [isLikelyArticleUrl] uses

    Both patterns are sequences of single-character atoms (a literal, a
    literal under the [i] flag, or [\d]); the alternation
    [(news|story|...)] is unfolded into one sequence per alternative.
    [regexTest p s] is "[s.match(p)] is not null": the sequence matches at
    some position of [s]. *)

Inductive atom : Type :=
| Lit (c : ascii)
| LitI (c : ascii)
| Digit.

Definition atomMatches (a : atom) (c : ascii) : bool :=
  match a with
  | Lit x => Ascii.eqb x c
  | LitI x => Ascii.eqb (lowerChar x) (lowerChar c)
  | Digit => isDigit c
  end.

Fixpoint matchHere (p : list atom) (s : string) {struct p} : bool :=
  match p with
  | [] => true
  | a :: p' =>
      match s with
      | EmptyString => false
      | String c s' => atomMatches a c && matchHere p' s'
      end
  end.

Fixpoint regexTest (p : list atom) (s : string) : bool :=
  matchHere p s
  || match s with
     | EmptyString => false
     | String _ s' => regexTest p s'
     end.

Definition lits (s : string) : list atom := map Lit (list_ascii_of_string s).
Definition litsI (s : string) : list atom := map LitI (list_ascii_of_string s).

(** [/\/202\d\/\d{2}\/\d{2}\//] *)
Definition datedPathRegex : list atom :=
  lits "/202" ++ [Digit] ++ lits "/" ++ [Digit; Digit] ++ lits "/"
       ++ [Digit; Digit] ++ lits "/".

Definition sectionWords : list string :=
  ["news"; "story"; "article"; "post"; "politics"; "tech"; "business"].

(** One alternative of [/\/(news|story|article|post|politics|tech|business)\//i] *)
Definition sectionRegex (w : string) : list atom :=
  litsI "/" ++ litsI w ++ litsI "/".

(** ** Errors and settled promises *)

Record JsError : Type := mkError { errName : string; message : string }.

Inductive Outcome (A : Type) : Type :=
| Fulfilled (a : A)
| Rejected (e : JsError).
Arguments Fulfilled {A} a.
Arguments Rejected {A} e.

Definition bind {A B} (m : Outcome A) (k : A -> Outcome B) : Outcome B :=
  match m with
  | Fulfilled a => k a
  | Rejected e => Rejected e
  end.

Notation "x <- m ;; k" := (bind m (fun x => k))
  (at level 61, m at next level, right associativity).

Definition isRejected {A} (m : Outcome A) : bool :=
  match m with Rejected _ => true | Fulfilled _ => false end.

(** ** The external capabilities: HTTP client, HTML parser, WHATWG URL, Date *)

(** A parsed document is represented by what the selector engine answers:
    a node carries its attributes, its text, the matches of [find] below it
    and its next sibling; a document lists the matches of each selector. *)
Inductive Node : Type :=
| mkNode (attrs : list (string * string)) (text : string)
         (descendants : list (string * list Node)) (nextSibling : option Node).

Definition Selection : Type := list Node.
Definition Doc : Type := list (string * Selection).

Fixpoint assoc {V} (k : string) (l : list (string * V)) : option V :=
  match l with
  | [] => None
  | (k', v) :: l' => if String.eqb k k' then Some v else assoc k l'
  end.

Definition select (d : Doc) (selector : string) : Selection :=
  match assoc selector d with Some ns => ns | None => [] end.

Definition nodeAttr (n : Node) (name : string) : option string :=
  match n with mkNode attrs _ _ _ => assoc name attrs end.
Definition nodeText (n : Node) : string :=
  match n with mkNode _ t _ _ => t end.
Definition nodeFind (n : Node) (selector : string) : Selection :=
  match n with
  | mkNode _ _ ds _ => match assoc selector ds with Some ns => ns | None => [] end
  end.
Definition nodeNext (n : Node) : Selection :=
  match n with
  | mkNode _ _ _ nx => match nx with Some m => [m] | None => [] end
  end.

(** cheerio's selection methods *)
Definition attr (sel : Selection) (name : string) : option string :=
  match sel with [] => None | n :: _ => nodeAttr n name end.
Definition text (sel : Selection) : string :=
  fold_right (fun n acc => (nodeText n ++ acc)%string) EmptyString sel.
Definition first (sel : Selection) : Selection := firstn 1 sel.
Definition find (sel : Selection) (selector : string) : Selection :=
  flat_map (fun n => nodeFind n selector) sel.
Definition next (sel : Selection) : Selection := flat_map nodeNext sel.

Record URLRecord : Type := mkURL {
  href : string;
  origin : string;
  hostname : string;
  pathname : string
}.

Record World : Type := mkWorld {
  (** [axios.get(url, {timeout})]: the response's [data], or a rejection
      (network error, non-2xx status, timeout) *)
  axios_get : string -> option Z -> Outcome string;
  (** [cheerio.load(html)] *)
  cheerio_load : string -> Doc;
  (** [new URL(input, base)]; throws a TypeError on an invalid URL *)
  new_URL : string -> option string -> Outcome URLRecord;
  (** [new Date(s).getTime()]; [None] is NaN (an invalid date) *)
  Date_parse : string -> option Z;
  (** [new Date().toISOString()]: the reading of the clock *)
  Date_now_ISO : string
}.

(** ** [isLikelyArticleUrl] *)

(** The test on the path; the JavaScript value is truthy iff this is [true]. *)
Definition isArticlePath (pathname : string) : bool :=
  includes pathname "/articles/"
  || regexTest datedPathRegex pathname
  || existsb (fun w => regexTest (sectionRegex w) pathname) sectionWords.

Definition isLikelyArticleUrl (W : World) (url : string) : Outcome bool :=
  parsed <- new_URL W url None ;;
  Fulfilled (isArticlePath (pathname parsed)).

(** ** ArticleRecord

    [link] is [None] when the property holds [undefined]; [content] and
    [error] are [None] when the object has no such property. *)
Record ArticleRecord : Type := mkArticle {
  title : string;
  link : option string;
  author : string;
  publicationDate : string;
  source : string;
  content : option string;
  error : option string
}.

(** ** Lexical scopes: [let]/[const] bindings and their temporal dead zone

    [scrapeArticleDetails] is the one function whose behaviour is decided by
    where its variables are declared, so its body is written in a small
    monad that threads the scope chain.  A block's [let] and [const]
    declarations exist from the start of the block but are uninitialised
    until their declaration is evaluated; reading one before that throws a
    ReferenceError, and so does reading a name no enclosing scope declares. *)

Inductive value : Type :=
| VUndefined
| VString (s : string)
| VCheerio (d : Doc)
| VError (e : JsError)
| VNative (name : string).

Inductive binding : Type :=
| Uninitialized
| Initialized (v : value).

Definition Frame : Type := list (string * binding).
Definition ScopeChain : Type := list Frame.

Definition referenceError (msg : string) : JsError := mkError "ReferenceError" msg.
Definition typeError (msg : string) : JsError := mkError "TypeError" msg.

Fixpoint resolveBinding (x : string) (sc : ScopeChain) : Outcome value :=
  match sc with
  | [] => Rejected (referenceError (x ++ " is not defined"))
  | f :: outer =>
      match assoc x f with
      | Some Uninitialized =>
          Rejected (referenceError
                      ("Cannot access '" ++ x ++ "' before initialization"))
      | Some (Initialized v) => Fulfilled v
      | None => resolveBinding x outer
      end
  end.

Fixpoint setInFrame (x : string) (v : value) (f : Frame) : Frame :=
  match f with
  | [] => []
  | (y, b) :: f' =>
      if String.eqb x y then (y, Initialized v) :: f'
      else (y, b) :: setInFrame x v f'
  end.

Fixpoint initializeBinding (x : string) (v : value) (sc : ScopeChain) : ScopeChain :=
  match sc with
  | [] => []
  | f :: outer =>
      match assoc x f with
      | Some _ => setInFrame x v f :: outer
      | None => f :: initializeBinding x v outer
      end
  end.

Definition Exec (A : Type) : Type := ScopeChain -> Outcome (A * ScopeChain).

Definition retE {A} (a : A) : Exec A := fun sc => Fulfilled (a, sc).
Definition throwE {A} (e : JsError) : Exec A := fun _ => Rejected e.
Definition bindE {A B} (m : Exec A) (k : A -> Exec B) : Exec B :=
  fun sc =>
    match m sc with
    | Fulfilled (a, sc') => k a sc'
    | Rejected e => Rejected e
    end.

Notation "x <<- m ;; k" := (bindE m (fun x => k))
  (at level 61, m at next level, right associativity).

(** [await p] *)
Definition await {A} (p : Outcome A) : Exec A :=
  fun sc => match p with Fulfilled a => Fulfilled (a, sc) | Rejected e => Rejected e end.

Definition read (x : string) : Exec value :=
  fun sc => v <- resolveBinding x sc ;; Fulfilled (v, sc).

(** [const x = v] / [let x = v], evaluated *)
Definition initialize (x : string) (v : value) : Exec unit :=
  fun sc => Fulfilled (tt, initializeBinding x v sc).

(** [{ ... }] declaring [decls] *)
Definition block {A} (decls : list string) (body : Exec A) : Exec A :=
  fun sc =>
    match body (map (fun x => (x, Uninitialized)) decls :: sc) with
    | Fulfilled (a, sc') => Fulfilled (a, tl sc')
    | Rejected e => Rejected e
    end.

(** [try body catch (param) handler]: the handler runs in the scope chain
    the [try] statement was entered with, extended by [param]. *)
Definition tryCatch {A} (body : Exec A) (param : string) (handler : Exec A) : Exec A :=
  fun sc =>
    match body sc with
    | Fulfilled r => Fulfilled r
    | Rejected e =>
        match handler ([(param, Initialized (VError e))] :: sc) with
        | Fulfilled (a, sc') => Fulfilled (a, tl sc')
        | Rejected e' => Rejected e'
        end
    end.

(** The bindings of the module ([const] at top level, all initialised by
    the time any function runs) and the CommonJS wrapper. *)
Definition moduleFrame : Frame :=
  map (fun x => (x, Initialized (VNative x)))
      ["axios"; "cheerio"; "URL"; "isLikelyArticleUrl"; "scrapeNews";
       "scrapeDynamicSite"; "scrapeArticleDetails"; "scrapeBBC"; "scrapeVerge";
       "scrapeCNN"; "scrapeHackerNews";
       "exports"; "require"; "module"; "__filename"; "__dirname"].

(** The properties of Node's global object that the module reads. *)
Definition globalFrame : Frame :=
  map (fun x => (x, Initialized (VNative x)))
      ["console"; "Date"; "JSON"; "Promise"; "Set"; "Array"; "isNaN"].

(** A call: the parameters form the innermost frame. *)
Definition functionScope (params : list (string * value)) : ScopeChain :=
  [map (fun p => (fst p, Initialized (snd p))) params; moduleFrame; globalFrame].

Definition callFunction {A} (params : list (string * value)) (body : Exec A) : Outcome A :=
  match body (functionScope params) with
  | Fulfilled (a, _) => Fulfilled a
  | Rejected e => Rejected e
  end.

(** JavaScript values that are a string or [undefined] *)
Definition truthy (o : option string) : bool :=
  match o with Some s => negb (isEmpty s) | None => false end.

(** [a || b] *)
Definition orElse (a b : Exec (option string)) : Exec (option string) :=
  x <<- a ;; if truthy x then retE x else b.
Notation "a <||> b" := (orElse a b) (at level 62, right associativity).

(** [$(selector)] *)
Definition dollar (selector : string) : Exec Selection :=
  f <<- read "$" ;;
  match f with
  | VCheerio d => retE (select d selector)
  | _ => throwE (typeError "$ is not a function")
  end.

Definition readString (x : string) : Exec (option string) :=
  v <<- read x ;;
  match v with
  | VString s => retE (Some s)
  | _ => retE None
  end.

(** [x.trim()] *)
Definition readTrim (x : string) : Exec string :=
  v <<- readString x ;;
  match v with
  | Some s => retE (trim s)
  | None =>
      throwE (typeError "Cannot read properties of undefined (reading 'trim')")
  end.

Definition ofOption (o : option string) : value :=
  match o with Some s => VString s | None => VUndefined end.

(** [$(sel).first().text()], [$(sel).text()], [$(sel).attr("content")],
    [$(sel).first().attr(name)] *)
Definition firstText (sel : string) : Exec (option string) :=
  s <<- dollar sel ;; retE (Some (text (first s))).
Definition allTextTrim (sel : string) : Exec (option string) :=
  s <<- dollar sel ;; retE (Some (trim (text s))).
Definition metaContent (sel : string) : Exec (option string) :=
  s <<- dollar sel ;; retE (attr s "content").
Definition firstAttr (sel name : string) : Exec (option string) :=
  s <<- dollar sel ;; retE (attr (first s) name).

(** ** [scrapeArticleDetails]

    Attribute selectors are written with ['] where the source has a double
    quote inside a single-quoted literal; the two are the same selector. *)
(** The [try] block. *)
Definition scrapeArticleDetailsTry (W : World) : Exec ArticleRecord :=
  (block ["articleBody"; "articleHtml"; "$"; "title"; "author";
          "publicationDate"; "source"]
     (articleBody <<-
        (allTextTrim
           "[class*='article-body'], [class*='story-body'], article, section"
         <||> allTextTrim "p") ;;
      _ <<- initialize "articleBody" (ofOption articleBody) ;;
      url <<- readString "articleUrl" ;;
      articleHtml <<-
        await (axios_get W (match url with Some u => u | None => EmptyString end)
                         (Some 5000%Z)) ;;
      _ <<- initialize "articleHtml" (VString articleHtml) ;;
      _ <<- initialize "$" (VCheerio (cheerio_load W articleHtml)) ;;
      title <<-
        (firstText ".headline__text"
         <||> metaContent "meta[property='og:title']"
         <||> metaContent "meta[name='twitter:title']"
         <||> (s <<- dollar "title" ;; retE (Some (text s)))
         <||> firstText "h1"
         <||> readString "fallbackTitle"
         <||> retE (Some "No title")) ;;
      _ <<- initialize "title" (ofOption title) ;;
      author <<-
        (firstText ".byline__name"
         <||> metaContent "meta[name='author']"
         <||> metaContent "meta[property='article:author']"
         <||> firstText ".author"
         <||> firstText "[class*='author']"
         <||> retE (Some "Unknown")) ;;
      _ <<- initialize "author" (ofOption author) ;;
      publicationDate <<-
        (firstText ".headline__sub-description"
         <||> metaContent "meta[property='article:published_time']"
         <||> metaContent "meta[name='publish-date']"
         <||> metaContent "meta[name='date']"
         <||> firstAttr "time" "datetime"
         <||> firstText "time"
         <||> firstText ".date"
         <||> firstText "[class*='date']"
         <||> retE (Some "Unknown")) ;;
      _ <<- initialize "publicationDate" (ofOption publicationDate) ;;
      source <<-
        (metaContent "meta[property='og:site_name']"
         <||> readString "siteName"
         <||> retE (Some "Unknown")) ;;
      _ <<- initialize "source" (ofOption source) ;;
      t <<- readTrim "title" ;;
      l <<- readString "articleUrl" ;;
      a <<- readTrim "author" ;;
      d <<- readTrim "publicationDate" ;;
      s <<- readTrim "source" ;;
      retE {| title := t; link := l; author := a; publicationDate := d;
              source := s; content := None; error := None |})).

(** The [catch (error)] block. *)
Definition scrapeArticleDetailsCatch : Exec ArticleRecord :=
  (block []
     (t <<- readTrim "title" ;;
      l <<- readString "articleUrl" ;;
      a <<- readTrim "author" ;;
      d <<- readTrim "publicationDate" ;;
      s <<- readTrim "source" ;;
      body <<- readString "articleBody" ;;
      match body with
      | Some b =>
          retE {| title := t; link := l; author := a; publicationDate := d;
                  source := s;
                  content := Some (substring 0 2000 b ++ "...")%string;
                  error := None |}
      | None =>
          throwE (typeError
            "Cannot read properties of undefined (reading 'substring')")
      end)).

Definition scrapeArticleDetailsParams (articleUrl fallbackTitle siteName : string)
  : list (string * value) :=
  [("articleUrl", VString articleUrl);
   ("fallbackTitle", VString fallbackTitle);
   ("siteName", VString siteName)].

Definition scrapeArticleDetails (W : World)
    (articleUrl fallbackTitle siteName : string) : Outcome ArticleRecord :=
  callFunction (scrapeArticleDetailsParams articleUrl fallbackTitle siteName)
    (tryCatch (scrapeArticleDetailsTry W) "error" scrapeArticleDetailsCatch).

(** ** [Array.prototype.sort] as Node's V8 runs it

    V8 sorts with TimSort ([third_party/v8/builtins/array-sort.tq]).  For an
    array shorter than 64 elements the minimal run length is the array's
    length, so the whole sort is: [CountAndMakeRun] finds the run at the
    start of the array (reversing it when it is strictly descending), and
    [BinaryInsertionSort] inserts the remaining elements one by one, each at
    the place a binary search finds.  The comparator's result is only ever
    tested with [order < 0].  [scrapeNews] sorts at most 20 records
    (4 adapters of at most 5 records, or at most 8 candidates), so this is
    the part of the algorithm it can reach. *)

Module ArraySort.
Section Sort.
Context {A : Type} (comparefn : A -> A -> Z).

(** The loop of [CountAndMakeRun]: extend the run while the order between
    neighbours agrees with [isDescending]. *)
Fixpoint extendRun (isDescending : bool) (previousElement : A) (l : list A)
  : list A * list A :=
  match l with
  | [] => ([], [])
  | currentElement :: l' =>
      let order := comparefn currentElement previousElement in
      if (if isDescending then (order <? 0)%Z else (0 <=? order)%Z)
      then let (run, rest) := extendRun isDescending currentElement l' in
           (currentElement :: run, rest)
      else ([], l)
  end.

Definition countAndMakeRun (l : list A) : list A * list A :=
  match l with
  | [] => ([], [])
  | [x] => ([x], [])
  | elementHigh :: elementLow :: l' =>
      let order := comparefn elementLow elementHigh in
      let isDescending := (order <? 0)%Z in
      let (run, rest) := extendRun isDescending elementLow l' in
      let whole := elementHigh :: elementLow :: run in
      (if isDescending then rev whole else whole, rest)
  end.

(** The binary search of [BinaryInsertionSort]; [fuel] bounds the number
    of halvings and [S (right - left)] is always enough. *)
Fixpoint findSlot (fuel : nat) (sorted : list A) (pivot : A) (left right : nat)
  : nat :=
  match fuel with
  | 0 => left
  | S fuel' =>
      if left <? right then
        let mid := left + (right - left) / 2 in
        match nth_error sorted mid with
        | Some e =>
            if (comparefn pivot e <? 0)%Z
            then findSlot fuel' sorted pivot left mid
            else findSlot fuel' sorted pivot (S mid) right
        | None => left
        end
      else left
  end.

Definition insertPivot (sorted : list A) (pivot : A) : list A :=
  let left := findSlot (S (length sorted)) sorted pivot 0 (length sorted) in
  firstn left sorted ++ pivot :: skipn left sorted.

Definition binaryInsertionSort (run rest : list A) : list A :=
  fold_left insertPivot rest run.

Definition sort (l : list A) : list A :=
  let (run, rest) := countAndMakeRun l in
  binaryInsertionSort run rest.

(** What the algorithm asks of the comparator: [precedes a b] is the test
    [order < 0] on [comparefn a b], "[a] is to go in front of [b]". *)
Definition precedes (a b : A) : bool := (comparefn a b <? 0)%Z.

(** No element is to go in front of an earlier one. *)
Fixpoint ordered (l : list A) : Prop :=
  match l with
  | [] => True
  | a :: l' => Forall (fun b => precedes b a = false) l' /\ ordered l'
  end.

(** Every element is to go in front of all earlier ones. *)
Fixpoint descending (l : list A) : Prop :=
  match l with
  | [] => True
  | a :: l' => Forall (fun b => precedes b a = true) l' /\ descending l'
  end.

(** Neighbours of a run, as [extendRun] tests them. *)
Fixpoint chain (isDescending : bool) (previousElement : A) (run : list A) : Prop :=
  match run with
  | [] => True
  | c :: r => precedes c previousElement = isDescending /\ chain isDescending c r
  end.
End Sort.
End ArraySort.

(** ** Link discovery (the [linkSelectors] loop of [scrapeDynamicSite]) *)

Definition linkSelectors : list string :=
  ["a[href*='/article']"; "a[href*='/news']"; "a[href*='/story']";
   "a[href*='/202']"; "article a"; "h2 a"; "h3 a"; ".headline a"].

(** A link object [{url, title}].  [foundLinks] is a [Set] of the objects'
    [JSON.stringify] images, which are equal exactly when the two pairs are,
    and [JSON.parse] gives the pair back; the set is modelled as the list of
    its members in insertion order. *)
Definition LinkObj : Type := (string * string)%type.

Definition linkObjEqb (a b : LinkObj) : bool :=
  String.eqb (fst a) (fst b) && String.eqb (snd a) (snd b).

Definition setAdd (x : LinkObj) (s : list LinkObj) : list LinkObj :=
  if existsb (linkObjEqb x) s then s else s ++ [x].

(** The callback of [$(selector).each]. *)
Definition visitAnchor (W : World) (baseUrl : string)
    (foundLinks : list LinkObj) (el : Node) : Outcome (list LinkObj) :=
  if 10 <=? length foundLinks then Fulfilled foundLinks
  else
    let txt := trim (nodeText el) in
    match nodeAttr el "href" with
    | Some h =>
        if negb (isEmpty h)
           && (10 <? String.length txt)
           && negb (includes h "tag")
           && negb (includes h "mailto")
        then
          fullUrl <- (if startsWith h "http" then Fulfilled h
                      else u <- new_URL W h (Some baseUrl) ;; Fulfilled (href u)) ;;
          Fulfilled (setAdd (fullUrl, txt) foundLinks)
        else Fulfilled foundLinks
    | None => Fulfilled foundLinks
    end.

Fixpoint foldM {A B} (f : B -> A -> Outcome B) (l : list A) (b : B) : Outcome B :=
  match l with
  | [] => Fulfilled b
  | a :: l' => b' <- f b a ;; foldM f l' b'
  end.

Definition collectLinks (W : World) (doc : Doc) (baseUrl : string)
  : Outcome (list LinkObj) :=
  foldM (visitAnchor W baseUrl) (flat_map (select doc) linkSelectors) [].

Definition discoverLinks (W : World) (doc : Doc) (baseUrl : string)
  : Outcome (list LinkObj) :=
  foundLinks <- collectLinks W doc baseUrl ;;
  Fulfilled (firstn 8 foundLinks).

(** ** [scrapeDynamicSite] *)

Definition degradedRecord (siteName : string) (linkObj : LinkObj) : ArticleRecord :=
  {| title := snd linkObj; link := Some (fst linkObj); author := "Unknown";
     publicationDate := "Unknown"; source := siteName;
     content := None; error := None |}.

(** The body of the [for ... of linkObjects] loop. *)
Definition scrapeCandidate (W : World) (siteName : string) (linkObj : LinkObj)
  : ArticleRecord :=
  match scrapeArticleDetails W (fst linkObj) (snd linkObj) siteName with
  | Fulfilled article => article
  | Rejected _ => degradedRecord siteName linkObj
  end.

(** The [try] block. *)
Definition scrapeDynamicSiteTry (W : World) (url : string)
  : Outcome (list ArticleRecord) :=
  parsed <- new_URL W url None ;;
  let siteName := hostname parsed in
  isArticle <- isLikelyArticleUrl W url ;;
  if isArticle then
    article <- scrapeArticleDetails W url "Single Article" siteName ;;
    Fulfilled [article]
  else
    homepage <- axios_get W url (Some 10000%Z) ;;
    let doc := cheerio_load W homepage in
    parsed' <- new_URL W url None ;;
    let baseUrl := origin parsed' in
    linkObjects <- discoverLinks W doc baseUrl ;;
    Fulfilled (map (scrapeCandidate W siteName) linkObjects).

Definition errorRecord (W : World) (url : string) (err : JsError) : ArticleRecord :=
  {| title := ("Error scraping " ++ url)%string; link := Some url;
     author := "System"; publicationDate := Date_now_ISO W; source := "Error";
     content := None; error := Some (message err) |}.

Definition scrapeDynamicSite (W : World) (url : string)
  : Outcome (list ArticleRecord) :=
  match scrapeDynamicSiteTry W url with
  | Fulfilled results => Fulfilled results
  | Rejected err => Fulfilled [errorRecord W url err]
  end.

(** ** The site adapters

    [scrapeBBC], [scrapeVerge] and [scrapeCNN] are the same text up to the
    listing URL, the link selector, the test on a link, the prefix of a
    relative link and the defaults of [author] and [source]; [scrapeAdapter]
    is that text with these as parameters. *)

(** [o || d] *)
Definition orDefault (o : option string) (d : string) : string :=
  match o with
  | Some s => if isEmpty s then d else s
  | None => d
  end.

(** The callback of [$(selector).each] that fills [articleLinks]. *)
Definition pushLink (accept : string -> bool) (prefix : string)
    (articleLinks : list string) (el : Node) : list string :=
  match nodeAttr el "href" with
  | Some l =>
      if negb (isEmpty l) && accept l && (length articleLinks <? 5) then
        let fullUrl := if startsWith l "http" then l else (prefix ++ l)%string in
        if existsb (String.eqb fullUrl) articleLinks then articleLinks
        else articleLinks ++ [fullUrl]
      else articleLinks
  | None => articleLinks
  end.

(** The body of [for (const link of articleLinks)]: a failure is logged and
    the link contributes no record. *)
Definition adapterArticle (W : World)
    (authorSelector authorDefault sourceDefault l : string) : list ArticleRecord :=
  match axios_get W l None with
  | Fulfilled articleHtml =>
      let doc := cheerio_load W articleHtml in
      [ {| title := orDefault (attr (select doc "meta[property='og:title']") "content")
                              "No title";
           link := Some l;
           author := orDefault (attr (select doc authorSelector) "content")
                               authorDefault;
           publicationDate :=
             orDefault (attr (select doc "meta[property='article:published_time']")
                             "content") "Unknown";
           source := orDefault (attr (select doc "meta[property='og:site_name']")
                                     "content") sourceDefault;
           content := None; error := None |} ]
  | Rejected _ => []
  end.

Definition scrapeAdapter (W : World) (baseUrl selector : string)
    (accept : string -> bool)
    (prefix authorSelector authorDefault sourceDefault : string)
  : Outcome (list ArticleRecord) :=
  homepage <- axios_get W baseUrl None ;;
  let doc := cheerio_load W homepage in
  let articleLinks := fold_left (pushLink accept prefix) (select doc selector) [] in
  Fulfilled (flat_map (adapterArticle W authorSelector authorDefault sourceDefault)
                      articleLinks).

Definition scrapeBBC (W : World) : Outcome (list ArticleRecord) :=
  scrapeAdapter W "https://www.bbc.com/news" "a.gs-c-promo-heading"
    (fun l => negb (includes l "/live/") && negb (includes l "#"))
    "https://www.bbc.com" "meta[name='byl']" "BBC News" "BBC News".

Definition scrapeVerge (W : World) : Outcome (list ArticleRecord) :=
  scrapeAdapter W "https://www.theverge.com/" "a[data-analytics-link='article']"
    (fun _ => true)
    "https://www.theverge.com" "meta[name='author']" "Unknown" "The Verge".

Definition scrapeCNN (W : World) : Outcome (list ArticleRecord) :=
  scrapeAdapter W "https://edition.cnn.com/" "a[href^='/202']"
    (fun _ => true)
    "https://edition.cnn.com" "meta[name='author']" "CNN" "CNN".

Fixpoint mapM {A B} (f : A -> Outcome B) (l : list A) : Outcome (list B) :=
  match l with
  | [] => Fulfilled []
  | a :: l' => b <- f a ;; bs <- mapM f l' ;; Fulfilled (b :: bs)
  end.

(** The callback of [$(".athing").each]. *)
Definition hackerNewsRow (W : World) (url : string) (el : Node)
  : Outcome ArticleRecord :=
  let anchor := find [el] ".titleline a" in
  let ttl := text anchor in
  let lnk := attr anchor "href" in
  site <- (if truthy lnk
           then u <- new_URL W (orDefault lnk EmptyString) (Some url) ;;
                Fulfilled (hostname u)
           else Fulfilled "Unknown") ;;
  let subtext := find (next [el]) ".subtext" in
  let auth := orDefault (Some (text (find subtext ".hnuser"))) "Unknown" in
  let time := orDefault (Some (text (find subtext ".age"))) "Unknown" in
  Fulfilled {| title := ttl; link := lnk; author := auth;
               publicationDate := time; source := site;
               content := None; error := None |}.

Definition scrapeHackerNews (W : World) : Outcome (list ArticleRecord) :=
  let url := "https://news.ycombinator.com/" in
  data <- axios_get W url None ;;
  let doc := cheerio_load W data in
  news <- mapM (hackerNewsRow W url) (select doc ".athing") ;;
  Fulfilled (firstn 5 news).

(** ** [scrapeNews] *)

(** [Promise.all] of four promises: fulfilled with the four values when all
    are, rejected as soon as one is.  Which reason it rejects with when
    several do depends on timing; the model reports the first in array
    order, and no theorem below depends on which reason it is. *)
Definition promiseAll4 {A} (a b c d : Outcome A) : Outcome (A * A * A * A) :=
  x <- a ;; y <- b ;; z <- c ;; w <- d ;; Fulfilled (x, y, z, w).

Definition matchesKeyword (lowerCaseKeyword : string) (article : ArticleRecord) : bool :=
  includes (toLowerCase (title article)) lowerCaseKeyword
  || includes (toLowerCase (author article)) lowerCaseKeyword
  || includes (toLowerCase (source article)) lowerCaseKeyword.

(** The comparator of the ["date"] sort.  [dateB - dateA] is computed in
    doubles on two integers of magnitude at most 8.64e15; rounding keeps
    its sign, which is all the sort looks at. *)
Definition dateComparator (W : World) (a b : ArticleRecord) : Z :=
  match Date_parse W (publicationDate a) with
  | None => 1
  | Some dateA =>
      match Date_parse W (publicationDate b) with
      | None => -1
      | Some dateB => dateB - dateA
      end
  end%Z.

(** The time value of a record's [publicationDate], and whether it has one. *)
Definition dateOf (W : World) (a : ArticleRecord) : option Z :=
  Date_parse W (publicationDate a).

Definition unparseable (W : World) (a : ArticleRecord) : bool :=
  match dateOf W a with None => true | Some _ => false end.

(** Both dates parse and [a]'s is not before [b]'s. *)
Definition notOlder (W : World) (a b : ArticleRecord) : Prop :=
  match dateOf W a, dateOf W b with
  | Some x, Some y => (y <= x)%Z
  | _, _ => False
  end.

Definition hasKeywordInTitle (lowerCaseKeyword : string) (a : ArticleRecord) : bool :=
  includes (toLowerCase (title a)) lowerCaseKeyword.

(** The comparator of the ["relevance"] sort. *)
Definition relevanceComparator (lowerCaseKeyword : string) (a b : ArticleRecord) : Z :=
  let aHasKeywordInTitle := hasKeywordInTitle lowerCaseKeyword a in
  let bHasKeywordInTitle := hasKeywordInTitle lowerCaseKeyword b in
  if aHasKeywordInTitle && negb bHasKeywordInTitle then (-1)%Z
  else if negb aHasKeywordInTitle && bHasKeywordInTitle then 1%Z
  else 0%Z.

(** The first [if]: which records are gathered. *)
Definition gatherArticles (W : World) (targetUrl : string)
  : Outcome (list ArticleRecord) :=
  if negb (isEmpty targetUrl) then
    dynamicArticles <- scrapeDynamicSite W targetUrl ;;
    Fulfilled dynamicArticles
  else
    r <- promiseAll4 (scrapeBBC W) (scrapeVerge W) (scrapeCNN W)
                     (scrapeHackerNews W) ;;
    let '(bbc, verge, cnn, hacker) := r in
    Fulfilled (bbc ++ verge ++ cnn ++ hacker).

Definition filterByKeyword (keyword : string) (allArticles : list ArticleRecord)
  : list ArticleRecord :=
  if negb (isEmpty keyword)
  then filter (matchesKeyword (toLowerCase keyword)) allArticles
  else allArticles.

Definition sortArticles (W : World) (keyword sortBy : string)
    (allArticles : list ArticleRecord) : list ArticleRecord :=
  if String.eqb sortBy "date" then
    ArraySort.sort (dateComparator W) allArticles
  else if String.eqb sortBy "relevance" && negb (isEmpty keyword) then
    ArraySort.sort (relevanceComparator (toLowerCase keyword)) allArticles
  else allArticles.

Definition scrapeNews (W : World) (targetUrl keyword sortBy : string)
  : Outcome (list ArticleRecord) :=
  allArticles <- gatherArticles W targetUrl ;;
  Fulfilled (sortArticles W keyword sortBy (filterByKeyword keyword allArticles)).

(** ** The classifier as §4.1 of the specification words it

    Written from the specification, to be compared with [isArticlePath]:
    the path contains an [/articles/] segment, or matches [/20YY/MM/DD/], or
    has a segment equal, ignoring case, to a word of the vocabulary. *)

Fixpoint splitSlash (s : string) : list string :=
  match s with
  | EmptyString => [EmptyString]
  | String c s' =>
      if Ascii.eqb c "/"%char then EmptyString :: splitSlash s'
      else match splitSlash s' with
           | [] => [String c EmptyString]
           | seg :: segs => String c seg :: segs
           end
  end.

Definition specDatedPathRegex : list atom :=
  lits "/20" ++ [Digit; Digit] ++ lits "/" ++ [Digit; Digit] ++ lits "/"
       ++ [Digit; Digit] ++ lits "/".

Definition specIsArticleLike (pathname : string) : bool :=
  includes pathname "/articles/"
  || regexTest specDatedPathRegex pathname
  || existsb (fun seg => existsb (String.eqb (toLowerCase seg)) sectionWords)
             (splitSlash pathname).

(** ** A table-driven world for examples

    The mocked capabilities of a test: pages by URL, documents by page
    text, URL records by input string, dates by text, and a clock. *)

Definition mockWorld (pages : list (string * string)) (docs : list (string * Doc))
    (urls : list (string * URLRecord)) (dates : list (string * Z))
    (now : string) : World :=
  {| axios_get := fun url _ =>
       match assoc url pages with
       | Some html => Fulfilled html
       | None => Rejected (mkError "AxiosError" "Network Error")
       end;
     cheerio_load := fun html =>
       match assoc html docs with Some d => d | None => [] end;
     new_URL := fun input _ =>
       match assoc input urls with
       | Some u => Fulfilled u
       | None => Rejected (typeError "Invalid URL")
       end;
     Date_parse := fun s => assoc s dates;
     Date_now_ISO := now |}.

(** The same world at another reading of the clock. *)
Definition withClock (W : World) (now : string) : World :=
  {| axios_get := axios_get W; cheerio_load := cheerio_load W;
     new_URL := new_URL W; Date_parse := Date_parse W; Date_now_ISO := now |}.

(** ** Provenance of a discovered link, and the clock in a record *)

(** [linkObj] was made from an anchor of [els] that passes the tests of
    [visitAnchor]. *)
Definition discoveredFrom (W : World) (baseUrl : string) (els : list Node)
    (linkObj : LinkObj) : Prop :=
  exists el h,
    In el els
    /\ nodeAttr el "href" = Some h
    /\ includes h "tag" = false
    /\ includes h "mailto" = false
    /\ snd linkObj = trim (nodeText el)
    /\ 10 < String.length (snd linkObj)
    /\ ((startsWith h "http" = true /\ fst linkObj = h)
        \/ (startsWith h "http" = false
            /\ exists u, new_URL W h (Some baseUrl) = Fulfilled u
                         /\ fst linkObj = href u))
    /\ isEmpty h = false.

(** What [foundLinks] satisfies at every step of the discovery loop. *)
Definition foundInvariant (W : World) (baseUrl : string) (els : list Node)
    (found : list LinkObj) : Prop :=
  length found <= 10 /\ NoDup found
  /\ Forall (discoveredFrom W baseUrl els) found.

(** The record is not a synthetic error record. *)
Definition noError (a : ArticleRecord) : Prop := error a = None.

(** A synthetic error record (one with an [error] property) stamped with
    another reading of the clock; other records are left as they are. *)
Definition restamp (now : string) (a : ArticleRecord) : ArticleRecord :=
  match error a with
  | Some _ =>
      {| title := title a; link := link a; author := author a;
         publicationDate := now; source := source a;
         content := content a; error := error a |}
  | None => a
  end.

Definition mapOutcome {A B} (f : A -> B) (m : Outcome A) : Outcome B :=
  match m with
  | Fulfilled a => Fulfilled (f a)
  | Rejected e => Rejected e
  end.

(** ** Worlds and records of the examples *)

Definition exampleClock : string := "2025-01-01T00:00:00.000Z".
Definition laterClock : string := "2025-01-01T00:00:01.000Z".

Definition siteUrl (path : string) : URLRecord :=
  mkURL ("https://site.com" ++ path) "https://site.com" "site.com" path.

Definition classifierWorld : World :=
  mockWorld [] []
    [("https://site.com/2024/05/01/story", siteUrl "/2024/05/01/story");
     ("https://site.com/section/tech", siteUrl "/section/tech");
     ("https://site.com/2019/05/01/story", siteUrl "/2019/05/01/story")]
    [] exampleClock.

Definition anchor (h t : string) : Node := mkNode [("href", h)] t [] None.
Definition metaNode (c : string) : Node := mkNode [("content", c)] EmptyString [] None.
Definition textNode (t : string) : Node := mkNode [] t [] None.

(** A listing page: a duplicate pair, one URL under two texts, a tag link,
    a short text and a mailto link. *)
Definition listingDoc : Doc :=
  [("a[href*='/story']",
    [anchor "https://example.com/story/one" "  First headline of the day  ";
     anchor "/story/two" "Second headline of the day";
     anchor "/story/tagged" "A story filed under a tag";
     anchor "/story/3" "Short"]);
   ("h2 a",
    [anchor "https://example.com/story/one" "First headline of the day";
     anchor "https://example.com/story/one" "Another text for story one";
     anchor "mailto:desk@example.com" "Write to the news desk"])].

Definition exampleUrl : URLRecord :=
  mkURL "https://example.com/" "https://example.com" "example.com" "/".

Definition listingWorld : World :=
  mockWorld
    [("https://example.com/", "listing-page")]
    [("listing-page", listingDoc)]
    [("https://example.com/", exampleUrl);
     ("/story/two",
      mkURL "https://example.com/story/two" "https://example.com"
            "example.com" "/story/two")]
    [] exampleClock.

Definition listingLinks : list LinkObj :=
  [("https://example.com/story/one", "First headline of the day");
   ("https://example.com/story/two", "Second headline of the day");
   ("https://example.com/story/one", "Another text for story one")].

(** A site whose host name contains "tag"; its page has a relative link
    and a link whose scheme is written in capitals ([new URL] lower-cases
    the scheme). *)
Definition tagDoc : Doc :=
  [("h2 a",
    [anchor "/a/nel" "A report from the newsroom";
     anchor "MAILTO:desk@example.com" "Write to the news desk"])].

Definition tagWorld : World :=
  mockWorld
    [("https://tagesschau.example/", "tagesschau-page")]
    [("tagesschau-page", tagDoc)]
    [("https://tagesschau.example/",
      mkURL "https://tagesschau.example/" "https://tagesschau.example"
            "tagesschau.example" "/");
     ("/a/nel",
      mkURL "https://tagesschau.example/a/nel" "https://tagesschau.example"
            "tagesschau.example" "/a/nel");
     ("MAILTO:desk@example.com",
      mkURL "mailto:desk@example.com" "null" EmptyString "desk@example.com")]
    [] exampleClock.

(** The same site with its listing page unreachable. *)
Definition listingDownWorld (now : string) : World :=
  mockWorld [] [] [("https://example.com/", exampleUrl)] [] now.

(** The four default sites.  The Hacker News page has a row with its title
    anchor and subtext and a row with neither. *)
Definition hackerNewsRows : list Node :=
  [mkNode [] "1. Show HN: a thing"
          [(".titleline a", [anchor "https://example.org/post" "Show HN: a thing"])]
          (Some (mkNode [] "alice 2 hours ago"
                        [(".subtext",
                          [mkNode [] "alice 2 hours ago"
                                  [(".hnuser", [textNode "alice"]);
                                   (".age", [textNode "2 hours ago"])]
                                  None])]
                        None));
   mkNode [] EmptyString [] None].

Definition defaultSitesPages : list (string * string) :=
  [("https://www.bbc.com/news", "bbc-listing");
   ("https://www.theverge.com/", "verge-listing");
   ("https://edition.cnn.com/", "cnn-listing");
   ("https://news.ycombinator.com/", "hn-listing");
   ("https://www.bbc.com/news/articles/c1", "bbc-article")].

Definition sitesWorld (pages : list (string * string)) : World :=
  mockWorld pages
    [("bbc-listing",
      [("a.gs-c-promo-heading",
        [anchor "/news/articles/c1" "A story"; anchor "/news/live/c2" "Live"])]);
     ("bbc-article", [("meta[property='og:title']", [metaNode "BBC story"])]);
     ("cnn-listing", [("a[href^='/202']", [anchor "/2024/05/01/world/x" "X"])]);
     ("hn-listing", [(".athing", hackerNewsRows)])]
    [("https://example.org/post",
      mkURL "https://example.org/post" "https://example.org" "example.org" "/post")]
    [] exampleClock.

Definition defaultSitesWorld : World := sitesWorld defaultSitesPages.
(** The BBC listing page is unreachable, the other three are not. *)
Definition bbcDownWorld : World := sitesWorld (tl defaultSitesPages).

Definition plainRecord (t l a d s : string) : ArticleRecord :=
  {| title := t; link := Some l; author := a; publicationDate := d;
     source := s; content := None; error := None |}.

Definition bbcStory : ArticleRecord :=
  plainRecord "BBC story" "https://www.bbc.com/news/articles/c1" "BBC News"
              "Unknown" "BBC News".
Definition hackerNewsStory : ArticleRecord :=
  plainRecord "Show HN: a thing" "https://example.org/post" "alice"
              "2 hours ago" "example.org".
Definition hackerNewsBlank : ArticleRecord :=
  {| title := EmptyString; link := None; author := "Unknown";
     publicationDate := "Unknown"; source := "Unknown";
     content := None; error := None |}.

Definition datesWorld : World :=
  mockWorld [] [] []
    [("2024-01-01", 1704067200000%Z); ("2024-06-01", 1717200000000%Z)]
    exampleClock.

Definition dated (t d : string) : ArticleRecord :=
  plainRecord t "https://example.com/a" "Unknown" d "example.com".

(** ** The HTTP route of [server/index.js]

    [GET /api/news]: the handler reads [url], [keyword] and [sortBy] from
    the parsed query string, awaits [scrapeNews] and answers with the
    records, or with status 500 and an error object when [scrapeNews]
    rejects.  [res.json] without [res.status] answers 200.

    A parameter that is absent is [undefined] ([None]).  A parameter that
    is given once is a string; one that is repeated or written with
    brackets reaches the handler as an array or an object
    ([QStructured]): such a value is truthy, has no [toLowerCase] method
    and is [===] to no string.  [url] is taken to occur at most once. *)

Inductive QueryValue : Type :=
| QString (s : string)
| QStructured.

Record Query : Type := mkQuery {
  queryUrl : option string;
  queryKeyword : option QueryValue;
  querySortBy : option QueryValue
}.

Inductive ResponseBody : Type :=
| ArticlesBody (articles : list ArticleRecord)
| FailureBody (errorText messageText : string) (articles : list ArticleRecord).

Record Response : Type := mkResponse { status : nat; body : ResponseBody }.

(** [const { x = d } = ...]: the default applies to [undefined] only. *)
Definition withDefault (o : option QueryValue) (d : string) : QueryValue :=
  match o with Some v => v | None => QString d end.

(** [scrapeNews] on the values the route passes.  With a structured
    keyword, [if (keyword)] is taken and [keyword.toLowerCase()] throws a
    TypeError once the records are gathered; with a structured [sortBy]
    neither comparison holds and the filtered records are returned
    unsorted. *)
Definition scrapeNewsFromQuery (W : World) (targetUrl : string)
    (keyword sortBy : QueryValue) : Outcome (list ArticleRecord) :=
  match keyword, sortBy with
  | QString k, QString s => scrapeNews W targetUrl k s
  | QString k, QStructured =>
      allArticles <- gatherArticles W targetUrl ;;
      Fulfilled (filterByKeyword k allArticles)
  | QStructured, _ =>
      _ <- gatherArticles W targetUrl ;;
      Rejected (typeError "keyword.toLowerCase is not a function")
  end.

Definition apiNews (W : World) (query : Query) : Response :=
  let url := queryUrl query in
  let keyword := withDefault (queryKeyword query) EmptyString in
  let sortBy := withDefault (querySortBy query) "default" in
  match scrapeNewsFromQuery W (orDefault url EmptyString) keyword sortBy with
  | Fulfilled articles => {| status := 200; body := ArticlesBody articles |}
  | Rejected err =>
      {| status := 500;
         body := FailureBody "Failed to scrape news" (message err) [] |}
  end.

(** The request's keyword is an array or an object. *)
Definition keywordIsStructured (query : Query) : bool :=
  match queryKeyword query with
  | Some QStructured => true
  | _ => false
  end.

(** ** Vocabulary of the further properties *)

(** The five fields hold non-empty strings. *)
Definition populated (a : ArticleRecord) : Prop :=
  isEmpty (title a) = false
  /\ (exists u, link a = Some u /\ isEmpty u = false)
  /\ isEmpty (author a) = false
  /\ isEmpty (publicationDate a) = false
  /\ isEmpty (source a) = false.

(** The record's date parses to the time value [t]. *)
Definition hasTime (W : World) (t : Z) (a : ArticleRecord) : bool :=
  match dateOf W a with Some x => Z.eqb x t | None => false end.

(** The keyword occurs in the author or the source. *)
Definition matchesElsewhere (lowerCaseKeyword : string) (a : ArticleRecord) : bool :=
  includes (toLowerCase (author a)) lowerCaseKeyword
  || includes (toLowerCase (source a)) lowerCaseKeyword.

(** What a record of the dynamic listing path looks like. *)
Definition degradedShape (siteName : string) (a : ArticleRecord) : Prop :=
  10 < String.length (title a)
  /\ (exists u, link a = Some u)
  /\ author a = "Unknown" /\ publicationDate a = "Unknown"
  /\ source a = siteName /\ content a = None /\ error a = None.

(** A Hacker News page whose sixth row links to a string that is no URL. *)
Definition athingRow (n t h : string) : Node :=
  mkNode [] (n ++ t) [(".titleline a", [anchor h t])] None.

Definition brokenRowPages : list (string * string) :=
  [("https://www.bbc.com/news", "bbc-listing");
   ("https://www.theverge.com/", "verge-listing");
   ("https://edition.cnn.com/", "cnn-listing");
   ("https://news.ycombinator.com/", "hn-six-rows")].

Definition brokenRowWorld : World :=
  mockWorld brokenRowPages
    [("hn-six-rows",
      [(".athing",
        [athingRow "1. " "First" "https://example.org/post";
         athingRow "2. " "Second" "https://example.org/post";
         athingRow "3. " "Third" "https://example.org/post";
         athingRow "4. " "Fourth" "https://example.org/post";
         athingRow "5. " "Fifth" "https://example.org/post";
         athingRow "6. " "Sixth" "http://["])])]
    [("https://example.org/post",
      mkURL "https://example.org/post" "https://example.org" "example.org" "/post")]
    [] exampleClock.

(** A listing page all of whose links are absolute. *)
Definition absoluteDoc : Doc :=
  [("h3 a",
    [anchor "https://example.com/news/one" "The first headline of the hour";
     anchor "https://example.com/news/two" "The second headline of the hour"])].

(** Ten links, as many as [foundLinks] ever holds, and an anchor whose
    relative link does not resolve. *)
Definition tenLinks : list LinkObj :=
  map (fun t => ("https://example.com/story/one", t))
      ["headline number 0"; "headline number 1"; "headline number 2";
       "headline number 3"; "headline number 4"; "headline number 5";
       "headline number 6"; "headline number 7"; "headline number 8";
       "headline number 9"].

Definition unresolvableAnchor : Node := anchor "//[" "A link that is no URL".

(** The links an adapter collects from its listing page. *)
Definition adapterLinks (W : World) (homepage selector : string)
    (accept : string -> bool) (prefix : string) : list string :=
  fold_left (pushLink accept prefix) (select (cheerio_load W homepage) selector) [].

Definition fetchable (W : World) (u : string) : bool :=
  negb (isRejected (axios_get W u None)).

(* ================================================================== *)
(** * Part II: properties                                              *)
(* ================================================================== *)

(** ** Strings *)

Section StringFacts.

Lemma startsWith_app (p post : string) : startsWith (p ++ post) p = true.
Proof.
  induction p as [|a p IH]; simpl; [reflexivity|].
  now rewrite Ascii.eqb_refl, IH.
Qed.

Lemma startsWith_inv (s p : string) :
  startsWith s p = true -> exists post, s = (p ++ post)%string.
Proof.
  revert s; induction p as [|a p IH]; intros s H; simpl in *.
  - now exists s.
  - destruct s as [|b s]; [discriminate|].
    apply andb_true_iff in H as [Hab Hs].
    apply Ascii.eqb_eq in Hab; subst b.
    destruct (IH _ Hs) as [post ->]. now exists post.
Qed.

Lemma includes_startsWith (s sub : string) :
  startsWith s sub = true -> includes s sub = true.
Proof. intros H. destruct s; simpl; rewrite H; reflexivity. Qed.

Lemma includes_app (pre sub post : string) :
  includes (pre ++ sub ++ post) sub = true.
Proof.
  induction pre as [|c pre IH].
  - simpl. apply includes_startsWith, startsWith_app.
  - simpl. rewrite IH. apply orb_true_r.
Qed.

Lemma includes_inv (s sub : string) :
  includes s sub = true -> exists pre post, s = (pre ++ sub ++ post)%string.
Proof.
  induction s as [|c s IH]; simpl; intros H.
  - rewrite orb_false_r in H. apply startsWith_inv in H as [post ->].
    now exists EmptyString, post.
  - apply orb_true_iff in H as [H|H].
    + apply startsWith_inv in H as [post ->]. now exists EmptyString, post.
    + destruct (IH H) as (pre & post & ->). now exists (String c pre), post.
Qed.

Lemma regexTest_app (p : list atom) (pre rest : string) :
  matchHere p rest = true -> regexTest p (pre ++ rest) = true.
Proof.
  intros H. induction pre as [|c pre IH]; simpl.
  - destruct rest; simpl; rewrite H; reflexivity.
  - rewrite IH. apply orb_true_r.
Qed.

Lemma regexTest_inv (p : list atom) (s : string) :
  regexTest p s = true ->
  exists pre rest, s = (pre ++ rest)%string /\ matchHere p rest = true.
Proof.
  induction s as [|c s IH]; simpl; intros H.
  - rewrite orb_false_r in H. now exists EmptyString, EmptyString.
  - apply orb_true_iff in H as [H|H].
    + now exists EmptyString, (String c s).
    + destruct (IH H) as (pre & rest & -> & Hm).
      now exists (String c pre), rest.
Qed.

Lemma matchHere_cons_inv (a : atom) (p : list atom) (s : string) :
  matchHere (a :: p) s = true ->
  exists c s', s = String c s' /\ atomMatches a c = true /\ matchHere p s' = true.
Proof.
  simpl. destruct s as [|c s']; [discriminate|].
  intros H. apply andb_true_iff in H as [H1 H2]. now exists c, s'.
Qed.

Lemma lowerChar_slash (c : ascii) :
  Ascii.eqb (lowerChar "/") (lowerChar c) = true -> c = "/"%char.
Proof.
  destruct c as [[] [] [] [] [] [] [] []]; vm_compute; congruence.
Qed.

(** A word under the [i] flag matches the strings that lower-case to the
    same word. *)
Lemma matchHere_litsI_inv (w : string) (p : list atom) (s : string) :
  matchHere (litsI w ++ p) s = true ->
  exists seg rest, s = (seg ++ rest)%string
                   /\ toLowerCase seg = toLowerCase w
                   /\ matchHere p rest = true.
Proof.
  revert s. induction w as [|a w IH]; intros s H.
  - now exists EmptyString, s.
  - change (litsI (String a w) ++ p) with (LitI a :: (litsI w ++ p)) in H.
    apply matchHere_cons_inv in H as (c & s' & -> & Hc & Hm).
    destruct (IH _ Hm) as (seg & rest & -> & Hl & Hr).
    exists (String c seg), rest. simpl in *. repeat split; auto.
    apply Ascii.eqb_eq in Hc. now rewrite Hl, Hc.
Qed.

Lemma matchHere_litsI (w seg : string) (p : list atom) (rest : string) :
  toLowerCase seg = toLowerCase w ->
  matchHere p rest = true ->
  matchHere (litsI w ++ p) (seg ++ rest) = true.
Proof.
  revert seg. induction w as [|a w IH]; intros seg Hl Hm.
  - destruct seg; [exact Hm | discriminate].
  - destruct seg as [|c seg]; [discriminate|].
    simpl in Hl. injection Hl as Hc Hl.
    change (litsI (String a w) ++ p) with (LitI a :: (litsI w ++ p)).
    simpl. rewrite Hc, Ascii.eqb_refl. simpl. now apply IH.
Qed.

End StringFacts.

(** ** The URL classifier *)

Section Classifier.

Lemma lit_inv (x c : ascii) : atomMatches (Lit x) c = true -> c = x.
Proof. simpl. intros H. apply Ascii.eqb_eq in H. congruence. Qed.

Lemma dated_inv (s : string) :
  matchHere datedPathRegex s = true ->
  exists y m1 m2 d1 d2 post,
    isDigit y = true /\ isDigit m1 = true /\ isDigit m2 = true
    /\ isDigit d1 = true /\ isDigit d2 = true
    /\ s = ("/202" ++ String y "/" ++ String m1 (String m2 "/")
                   ++ String d1 (String d2 "/") ++ post)%string.
Proof.
  intros H.
  change datedPathRegex
    with [Lit "/"; Lit "2"; Lit "0"; Lit "2"; Digit; Lit "/"; Digit; Digit;
          Lit "/"; Digit; Digit; Lit "/"]%char in H.
  apply matchHere_cons_inv in H as (c1 & s1 & -> & E1 & H).
  apply matchHere_cons_inv in H as (c2 & s2 & -> & E2 & H).
  apply matchHere_cons_inv in H as (c3 & s3 & -> & E3 & H).
  apply matchHere_cons_inv in H as (c4 & s4 & -> & E4 & H).
  apply matchHere_cons_inv in H as (y & s5 & -> & Ey & H).
  apply matchHere_cons_inv in H as (c6 & s6 & -> & E6 & H).
  apply matchHere_cons_inv in H as (m1 & s7 & -> & Em1 & H).
  apply matchHere_cons_inv in H as (m2 & s8 & -> & Em2 & H).
  apply matchHere_cons_inv in H as (c9 & s9 & -> & E9 & H).
  apply matchHere_cons_inv in H as (d1 & s10 & -> & Ed1 & H).
  apply matchHere_cons_inv in H as (d2 & s11 & -> & Ed2 & H).
  apply matchHere_cons_inv in H as (c12 & post & -> & E12 & _).
  apply lit_inv in E1, E2, E3, E4, E6, E9, E12. subst.
  exists y, m1, m2, d1, d2, post. simpl in *. repeat split; assumption.
Qed.

Lemma dated_intro (y m1 m2 d1 d2 : ascii) (post : string) :
  isDigit y = true -> isDigit m1 = true -> isDigit m2 = true ->
  isDigit d1 = true -> isDigit d2 = true ->
  matchHere datedPathRegex
    ("/202" ++ String y "/" ++ String m1 (String m2 "/")
            ++ String d1 (String d2 "/") ++ post) = true.
Proof.
  intros Hy H1 H2 H3 H4. cbn. now rewrite Hy, H1, H2, H3, H4.
Qed.

Lemma section_inv (w s : string) :
  matchHere (sectionRegex w) s = true ->
  exists seg post, toLowerCase seg = toLowerCase w
                   /\ s = ("/" ++ seg ++ "/" ++ post)%string.
Proof.
  unfold sectionRegex. intros H.
  change (litsI "/" ++ litsI w ++ litsI "/")
    with (LitI "/" :: (litsI w ++ [LitI "/"%char])) in H.
  apply matchHere_cons_inv in H as (c & s1 & -> & Ec & H).
  apply lowerChar_slash in Ec. subst c.
  apply matchHere_litsI_inv in H as (seg & rest & -> & Hl & H).
  apply matchHere_cons_inv in H as (c & post & -> & Ec & _).
  apply lowerChar_slash in Ec. subst c.
  now exists seg, post.
Qed.

Lemma section_intro (w seg post : string) :
  toLowerCase seg = toLowerCase w ->
  matchHere (sectionRegex w) ("/" ++ seg ++ "/" ++ post) = true.
Proof.
  intros Hl. unfold sectionRegex.
  change (litsI "/" ++ litsI w ++ litsI "/")
    with (LitI "/" :: (litsI w ++ [LitI "/"%char])).
  change ("/" ++ seg ++ "/" ++ post)%string
    with (String "/" (seg ++ String "/" post)).
  cbn [matchHere]. rewrite matchHere_litsI; auto.
Qed.

Lemma sectionWords_lower (w : string) :
  In w sectionWords -> toLowerCase w = w.
Proof.
  unfold sectionWords. simpl.
  intros H; repeat (destruct H as [<-|H]; [reflexivity|]); contradiction.
Qed.

End Classifier.

(** C5, as amended.  A well-formed URL is classified by its path alone, and
    it is article-like exactly when the path contains [/articles/], or
    contains [/202Y/MM/DD/] with five digits (the years 2020 to 2029), or
    contains [/seg/] where [seg] lower-cases to a word of the vocabulary;
    in the last two cases the closing slash is required. *)
Theorem isLikelyArticleUrl_characterisation
    (W : World) (url : string) (parsed : URLRecord) :
  new_URL W url None = Fulfilled parsed ->
  exists b,
    isLikelyArticleUrl W url = Fulfilled b
    /\ b = isArticlePath (pathname parsed)
    /\ (b = true <->
        (exists pre post, pathname parsed = (pre ++ "/articles/" ++ post)%string)
        \/ (exists pre y m1 m2 d1 d2 post,
               isDigit y = true /\ isDigit m1 = true /\ isDigit m2 = true
               /\ isDigit d1 = true /\ isDigit d2 = true
               /\ pathname parsed =
                  (pre ++ "/202" ++ String y "/" ++ String m1 (String m2 "/")
                       ++ String d1 (String d2 "/") ++ post)%string)
        \/ (exists w seg pre post,
               In w sectionWords /\ toLowerCase seg = w
               /\ pathname parsed = (pre ++ "/" ++ seg ++ "/" ++ post)%string)).
Proof.
  intros Hurl. exists (isArticlePath (pathname parsed)).
  unfold isLikelyArticleUrl. rewrite Hurl. cbn [bind].
  split; [reflexivity|]. split; [reflexivity|].
  generalize (pathname parsed) as p. intros p.
  unfold isArticlePath. rewrite !orb_true_iff, existsb_exists. split.
  - intros [[H|H]|(w & Hw & H)].
    + left. now apply includes_inv.
    + right; left. apply regexTest_inv in H as (pre & rest & -> & H).
      apply dated_inv in H as (y & m1 & m2 & d1 & d2 & post & ? & ? & ? & ? & ? & ->).
      now exists pre, y, m1, m2, d1, d2, post.
    + right; right. apply regexTest_inv in H as (pre & rest & -> & H).
      apply section_inv in H as (seg & post & Hl & ->).
      rewrite (sectionWords_lower _ Hw) in Hl.
      now exists w, seg, pre, post.
  - intros [(pre & post & ->)|[H|H]].
    + left; left. apply includes_app.
    + destruct H as (pre & y & m1 & m2 & d1 & d2 & post & ? & ? & ? & ? & ? & ->).
      left; right. apply regexTest_app. now apply dated_intro.
    + destruct H as (w & seg & pre & post & Hw & Hl & ->).
      right. exists w. split; [assumption|].
      apply regexTest_app, section_intro.
      now rewrite (sectionWords_lower _ Hw).
Qed.

(** ** The sort: what V8's run detection and binary insertion compute

    The comparator is only asked "is [a] to go in front of [b]?".  When that
    relation is asymmetric and negatively transitive (a strict weak order),
    the result is ordered, is a permutation of the input, and keeps the
    relative order of any elements none of which is to go in front of
    another. *)

Section SortFacts.
Context {A : Type} (comparefn : A -> A -> Z).

Local Abbreviation precedes := (ArraySort.precedes comparefn).
Local Abbreviation ordered := (ArraySort.ordered comparefn).
Local Abbreviation descending := (ArraySort.descending comparefn).
Local Abbreviation chain := (ArraySort.chain comparefn).
Local Abbreviation insertPivot := (ArraySort.insertPivot comparefn).
Local Abbreviation findSlot := (ArraySort.findSlot comparefn).

Lemma extendRun_app (isDescending : bool) (prev : A) (l run rest : list A) :
  ArraySort.extendRun comparefn isDescending prev l = (run, rest) ->
  l = run ++ rest /\ chain isDescending prev run.
Proof.
  revert prev run rest. induction l as [|c l IH]; intros prev run rest; simpl.
  - intros [= <- <-]. now split.
  - destruct (if isDescending then _ else _) eqn:Hc.
    + destruct (ArraySort.extendRun comparefn isDescending c l) as [r0 rest0] eqn:E.
      intros [= <- <-]. destruct (IH _ _ _ E) as [-> Hch].
      split; [reflexivity|]. simpl. split; [|assumption].
      unfold ArraySort.precedes. destruct isDescending; [assumption|].
      apply Z.leb_le in Hc. apply Z.ltb_ge. assumption.
    + intros [= <- <-]. now split.
Qed.

Lemma countAndMakeRun_perm (l run rest : list A) :
  ArraySort.countAndMakeRun comparefn l = (run, rest) ->
  Permutation l (run ++ rest).
Proof.
  destruct l as [|x0 [|x1 l]]; unfold ArraySort.countAndMakeRun.
  - intros [= <- <-]. constructor.
  - intros [= <- <-]. apply Permutation_refl.
  - destruct (ArraySort.extendRun comparefn _ x1 l) as [r rest0] eqn:E.
    intros [= <- <-]. destruct (extendRun_app _ _ _ _ _ E) as [-> _].
    apply (Permutation_app_tail (l := x0 :: x1 :: r)
             (l' := if (comparefn x1 x0 <? 0)%Z then rev (x0 :: x1 :: r)
                    else x0 :: x1 :: r) rest0).
    destruct (comparefn x1 x0 <? 0)%Z;
      [apply Permutation_rev | apply Permutation_refl].
Qed.

Lemma insertPivot_perm (sorted : list A) (pivot : A) :
  Permutation (sorted ++ [pivot]) (insertPivot sorted pivot).
Proof.
  unfold ArraySort.insertPivot.
  set (k := findSlot _ _ _ _ _).
  rewrite <- (firstn_skipn k sorted) at 1. rewrite <- app_assoc.
  apply Permutation_app_head.
  apply Permutation_sym, Permutation_cons_append.
Qed.

Lemma binaryInsertionSort_perm (rest run : list A) :
  Permutation (run ++ rest) (ArraySort.binaryInsertionSort comparefn run rest).
Proof.
  unfold ArraySort.binaryInsertionSort.
  revert run. induction rest as [|p rest IH]; intros run; simpl.
  - rewrite app_nil_r. apply Permutation_refl.
  - eapply Permutation_trans; [|apply IH].
    change (p :: rest) with ([p] ++ rest). rewrite app_assoc.
    apply Permutation_app_tail, insertPivot_perm.
Qed.

Lemma sort_perm (l : list A) : Permutation l (ArraySort.sort comparefn l).
Proof.
  unfold ArraySort.sort.
  destruct (ArraySort.countAndMakeRun comparefn l) as [run rest] eqn:E.
  eapply Permutation_trans;
    [apply (countAndMakeRun_perm _ _ _ E) | apply binaryInsertionSort_perm].
Qed.

Lemma sort_singleton (x : A) : ArraySort.sort comparefn [x] = [x].
Proof. reflexivity. Qed.

Lemma sort_nil : ArraySort.sort comparefn [] = [].
Proof. reflexivity. Qed.

Hypothesis precedes_asym :
  forall a b, precedes a b = true -> precedes b a = false.
Hypothesis precedes_negtrans :
  forall p a b, precedes p a = true -> precedes b a = false -> precedes p b = true.

Lemma precedes_trans (a b c : A) :
  precedes a b = true -> precedes b c = true -> precedes a c = true.
Proof.
  intros Hab Hbc. apply (precedes_negtrans _ _ _ Hab).
  now apply precedes_asym.
Qed.

Lemma not_precedes_trans (a b c : A) :
  precedes c b = false -> precedes b a = false -> precedes c a = false.
Proof.
  intros Hcb Hba. destruct (precedes c a) eqn:Hca; [|reflexivity].
  rewrite (precedes_negtrans _ _ _ Hca Hba) in Hcb. discriminate.
Qed.

Lemma ordered_app (l1 l2 : list A) :
  ordered (l1 ++ l2) <->
  ordered l1 /\ ordered l2
  /\ Forall (fun a => Forall (fun b => precedes b a = false) l2) l1.
Proof.
  induction l1 as [|a l1 IH]; simpl.
  - intuition.
  - rewrite Forall_app, IH. split.
    + intros [[H1 H2] (H3 & H4 & H5)]. repeat split; auto.
    + intros [[H1 H3] (H4 & H5)]. inversion H5; subst. repeat split; auto.
Qed.

Lemma chain_descending (prev : A) (run : list A) :
  chain true prev run -> descending (prev :: run).
Proof.
  revert prev. induction run as [|c r IH]; intros prev Hch.
  - simpl. split; [constructor | exact I].
  - destruct Hch as [Hc Hch]. specialize (IH _ Hch).
    split; [|exact IH]. constructor; [assumption|].
    destruct IH as [Hall _].
    eapply Forall_impl; [|exact Hall]. cbv beta. intros b Hb.
    now apply precedes_trans with c.
Qed.

Lemma chain_ordered (prev : A) (run : list A) :
  chain false prev run -> ordered (prev :: run).
Proof.
  revert prev. induction run as [|c r IH]; intros prev Hch.
  - simpl. split; [constructor | exact I].
  - destruct Hch as [Hc Hch]. specialize (IH _ Hch).
    split; [|exact IH]. constructor; [assumption|].
    destruct IH as [Hall _].
    eapply Forall_impl; [|exact Hall]. cbv beta. intros b Hb.
    now apply not_precedes_trans with c.
Qed.

Lemma descending_rev_ordered (l : list A) : descending l -> ordered (rev l).
Proof.
  induction l as [|a l IH]; simpl; [trivial|].
  intros [Hall Hd]. apply ordered_app. split; [auto|]. split.
  - simpl. split; [constructor | exact I].
  - apply Forall_rev. eapply Forall_impl; [|exact Hall]. cbv beta.
    intros b Hb. constructor; [|constructor]. now apply precedes_asym.
Qed.

Lemma countAndMakeRun_ordered (l run rest : list A) :
  ArraySort.countAndMakeRun comparefn l = (run, rest) -> ordered run.
Proof.
  destruct l as [|x0 [|x1 l]]; unfold ArraySort.countAndMakeRun.
  - intros [= <- <-]. exact I.
  - intros [= <- <-]. simpl. split; [constructor | exact I].
  - destruct (ArraySort.extendRun comparefn _ x1 l) as [r rest0] eqn:E.
    intros [= <- <-]. destruct (extendRun_app _ _ _ _ _ E) as [_ Hch].
    destruct (comparefn x1 x0 <? 0)%Z eqn:Hd.
    + apply (descending_rev_ordered (x0 :: x1 :: r)), chain_descending.
      simpl. now split.
    + apply chain_ordered. simpl. now split.
Qed.

Lemma skipn_nth_error (s : list A) (n : nat) (e : A) :
  nth_error s n = Some e -> skipn n s = e :: skipn (S n) s.
Proof.
  revert s. induction n as [|n IH]; intros [|x s] H; try discriminate.
  - now injection H as ->.
  - simpl in H. apply IH in H. exact H.
Qed.

Lemma firstn_nth_error (s : list A) (n : nat) (e : A) :
  nth_error s n = Some e -> firstn (S n) s = firstn n s ++ [e].
Proof.
  revert s. induction n as [|n IH]; intros [|x s] H; try discriminate.
  - now injection H as ->.
  - simpl in H. apply IH in H. simpl in *. now rewrite H.
Qed.

(** The binary search returns the boundary between the elements the pivot
    stays behind and those it goes in front of. *)
Lemma findSlot_boundary (s : list A) (p : A) :
  ordered s ->
  forall fuel left right,
    left <= right -> right <= length s -> right - left < fuel ->
    Forall (fun e => precedes p e = false) (firstn left s) ->
    Forall (fun e => precedes p e = true) (skipn right s) ->
    Forall (fun e => precedes p e = false) (firstn (findSlot fuel s p left right) s)
    /\ Forall (fun e => precedes p e = true) (skipn (findSlot fuel s p left right) s).
Proof.
  intros Hord. induction fuel as [|fuel IH]; intros left right Hlr Hr Hfuel HL HR.
  - lia.
  - cbn [ArraySort.findSlot]. destruct (left <? right) eqn:Hlt.
    + apply Nat.ltb_lt in Hlt.
      assert (Hhalf : (right - left) / 2 < right - left)
        by (apply Nat.div_lt; lia).
      set (mid := left + (right - left) / 2) in *.
      assert (Hmid : mid < length s) by (unfold mid; lia).
      destruct (nth_error s mid) as [e|] eqn:He;
        [|apply nth_error_None in He; lia].
      pose proof (firstn_skipn_middle _ _ He) as Hsplit.
      rewrite <- Hsplit in Hord. apply ordered_app in Hord as (_ & Htail & Hcross).
      destruct (comparefn p e <? 0)%Z eqn:Hpe.
      * apply IH; try (unfold mid; lia); [assumption|].
        rewrite (skipn_nth_error _ _ _ He). constructor; [exact Hpe|].
        destruct Htail as [Hall _].
        eapply Forall_impl; [|exact Hall]. cbv beta. intros b Hb.
        now apply (precedes_negtrans _ _ _ Hpe).
      * apply IH; try (unfold mid; lia); [|assumption].
        rewrite (firstn_nth_error _ _ _ He). apply Forall_app. split.
        -- eapply Forall_impl; [|exact Hcross]. cbv beta. intros a Ha.
           inversion Ha as [|? ? Hea _]; subst.
           now apply not_precedes_trans with e.
        -- constructor; [exact Hpe | constructor].
    + apply Nat.ltb_ge in Hlt. assert (left = right) by lia. subst. now split.
Qed.

Lemma insertPivot_boundary (s : list A) (p : A) :
  ordered s ->
  exists k,
    insertPivot s p = firstn k s ++ p :: skipn k s
    /\ Forall (fun e => precedes p e = false) (firstn k s)
    /\ Forall (fun e => precedes p e = true) (skipn k s).
Proof.
  intros Hord. eexists. split; [reflexivity|].
  apply findSlot_boundary;
    [assumption | lia | lia | lia | constructor | rewrite skipn_all; constructor].
Qed.

Lemma insertPivot_ordered (s : list A) (p : A) :
  ordered s -> ordered (insertPivot s p).
Proof.
  intros Hord. destruct (insertPivot_boundary s p Hord) as (k & -> & HL & HR).
  rewrite <- (firstn_skipn k s) in Hord.
  apply ordered_app in Hord as (H1 & H2 & H3).
  apply ordered_app. repeat split; auto.
  - eapply Forall_impl; [|exact HR]. cbv beta. intros b Hb.
    now apply precedes_asym.
  - clear H1. induction (firstn k s) as [|a l IH]; [constructor|].
    inversion H3; subst. inversion HL; subst.
    constructor; [constructor|]; auto.
Qed.

Lemma binaryInsertionSort_ordered (rest run : list A) :
  ordered run -> ordered (ArraySort.binaryInsertionSort comparefn run rest).
Proof.
  unfold ArraySort.binaryInsertionSort.
  revert run. induction rest as [|p rest IH]; intros run Hord; simpl; auto.
  apply IH, insertPivot_ordered, Hord.
Qed.

Theorem sort_ordered (l : list A) : ordered (ArraySort.sort comparefn l).
Proof.
  unfold ArraySort.sort.
  destruct (ArraySort.countAndMakeRun comparefn l) as [run rest] eqn:E.
  apply binaryInsertionSort_ordered. eapply countAndMakeRun_ordered, E.
Qed.

(** *** Stability on a class of mutually unordered elements *)

Variable cls : A -> bool.
Hypothesis cls_unordered :
  forall a b, cls a = true -> cls b = true -> precedes a b = false.

Lemma filter_none (l : list A) :
  Forall (fun b => cls b = false) l -> filter cls l = [].
Proof.
  induction 1 as [|b l Hb _ IH]; simpl; [reflexivity|]. now rewrite Hb.
Qed.

Lemma insertPivot_stable (s : list A) (p : A) :
  ordered s -> filter cls (insertPivot s p) = filter cls (s ++ [p]).
Proof.
  intros Hord. destruct (insertPivot_boundary s p Hord) as (k & -> & HL & HR).
  rewrite <- (firstn_skipn k s) at 3.
  rewrite !filter_app. simpl. rewrite <- app_assoc. f_equal.
  destruct (cls p) eqn:Hp; [|now rewrite app_nil_r].
  rewrite filter_none; [reflexivity|].
  eapply Forall_impl; [|exact HR]. cbv beta. intros b Hb.
  destruct (cls b) eqn:Hcb; [|reflexivity].
  rewrite (cls_unordered _ _ Hp Hcb) in Hb. discriminate.
Qed.

Lemma binaryInsertionSort_stable (rest run : list A) :
  ordered run ->
  filter cls (ArraySort.binaryInsertionSort comparefn run rest)
  = filter cls (run ++ rest).
Proof.
  unfold ArraySort.binaryInsertionSort.
  revert run. induction rest as [|p rest IH]; intros run Hord; simpl.
  - now rewrite app_nil_r.
  - rewrite IH by now apply insertPivot_ordered.
    rewrite filter_app, insertPivot_stable by assumption.
    rewrite <- filter_app, <- app_assoc. reflexivity.
Qed.

Lemma descending_filter_le1 (l : list A) :
  descending l -> length (filter cls l) <= 1.
Proof.
  induction l as [|a l IH]; simpl; [lia|].
  intros [Hall Hd]. destruct (cls a) eqn:Ha; [|auto].
  rewrite filter_none; [simpl; lia|].
  eapply Forall_impl; [|exact Hall]. cbv beta. intros b Hb.
  destruct (cls b) eqn:Hcb; [|reflexivity].
  rewrite (cls_unordered _ _ Hcb Ha) in Hb. discriminate.
Qed.

Lemma rev_short (l : list A) : length l <= 1 -> rev l = l.
Proof. destruct l as [|a [|b l]]; simpl; intros; [reflexivity .. | lia]. Qed.

Lemma countAndMakeRun_stable (l run rest : list A) :
  ArraySort.countAndMakeRun comparefn l = (run, rest) ->
  filter cls (run ++ rest) = filter cls l.
Proof.
  destruct l as [|x0 [|x1 l]]; unfold ArraySort.countAndMakeRun.
  - intros [= <- <-]. reflexivity.
  - intros [= <- <-]. reflexivity.
  - destruct (ArraySort.extendRun comparefn _ x1 l) as [r rest0] eqn:E.
    intros [= <- <-]. destruct (extendRun_app _ _ _ _ _ E) as [-> Hch].
    destruct (comparefn x1 x0 <? 0)%Z eqn:Hd.
    + assert (Hrev : filter cls (rev (x0 :: x1 :: r)) = filter cls (x0 :: x1 :: r)).
      { rewrite filter_rev. apply rev_short, descending_filter_le1.
        apply chain_descending. simpl. now split. }
      change (filter cls (rev (x0 :: x1 :: r) ++ rest0)
              = filter cls ((x0 :: x1 :: r) ++ rest0)).
      rewrite !filter_app. now rewrite Hrev.
    + reflexivity.
Qed.

Theorem sort_stable (l : list A) :
  filter cls (ArraySort.sort comparefn l) = filter cls l.
Proof.
  unfold ArraySort.sort.
  destruct (ArraySort.countAndMakeRun comparefn l) as [run rest] eqn:E.
  rewrite binaryInsertionSort_stable by (eapply countAndMakeRun_ordered, E).
  now apply countAndMakeRun_stable.
Qed.

(** An ordered list in which every element outside the class is to go in
    front of every element inside it has the class at its end. *)
Lemma ordered_partition (l : list A) :
  (forall a b, cls a = true -> cls b = false -> precedes b a = true) ->
  ordered l ->
  l = filter (fun a => negb (cls a)) l ++ filter cls l.
Proof.
  intros Hsep. induction l as [|a l IH]; simpl; [reflexivity|].
  intros [Hall Hord]. specialize (IH Hord).
  destruct (cls a) eqn:Ha; simpl.
  - assert (Hin : Forall (fun b => cls b = true) l).
    { eapply Forall_impl; [|exact Hall]. cbv beta. intros b Hb.
      destruct (cls b) eqn:Hcb; [reflexivity|].
      rewrite (Hsep _ _ Ha Hcb) in Hb. discriminate. }
    assert (Hno : filter (fun a => negb (cls a)) l = []).
    { clear -Hin. induction Hin as [|b l Hb _ IH]; simpl; [reflexivity|].
      now rewrite Hb. }
    assert (Hall' : filter cls l = l).
    { clear -Hin. induction Hin as [|b l Hb _ IH]; simpl; [reflexivity|].
      now rewrite Hb, IH. }
    now rewrite Hno, Hall'.
  - now rewrite <- IH.
Qed.

End SortFacts.

(** ** Sorting the records *)

Section SortByDate.
Variable W : World.

Lemma date_precedes (a b : ArticleRecord) :
  ArraySort.precedes (dateComparator W) a b =
  match dateOf W a, dateOf W b with
  | None, _ => false
  | Some _, None => true
  | Some x, Some y => (y <? x)%Z
  end.
Proof.
  unfold ArraySort.precedes, dateComparator, dateOf.
  destruct (Date_parse W (publicationDate a)) as [x|]; [|reflexivity].
  destruct (Date_parse W (publicationDate b)) as [y|]; [|reflexivity].
  destruct (Z.ltb_spec (y - x) 0), (Z.ltb_spec y x); auto; lia.
Qed.

Lemma date_precedes_asym (a b : ArticleRecord) :
  ArraySort.precedes (dateComparator W) a b = true ->
  ArraySort.precedes (dateComparator W) b a = false.
Proof.
  rewrite !date_precedes.
  destruct (dateOf W a), (dateOf W b); try congruence.
  intros H. apply Z.ltb_lt in H. apply Z.ltb_ge. lia.
Qed.

Lemma date_precedes_negtrans (p a b : ArticleRecord) :
  ArraySort.precedes (dateComparator W) p a = true ->
  ArraySort.precedes (dateComparator W) b a = false ->
  ArraySort.precedes (dateComparator W) p b = true.
Proof.
  rewrite !date_precedes.
  destruct (dateOf W p), (dateOf W a), (dateOf W b); try congruence.
  intros H1 H2. apply Z.ltb_lt in H1. apply Z.ltb_ge in H2. apply Z.ltb_lt. lia.
Qed.

Lemma unparseable_unordered (a b : ArticleRecord) :
  unparseable W a = true -> unparseable W b = true ->
  ArraySort.precedes (dateComparator W) a b = false.
Proof.
  rewrite date_precedes. unfold unparseable.
  destruct (dateOf W a); [discriminate | reflexivity].
Qed.

Lemma parseable_precedes_unparseable (a b : ArticleRecord) :
  unparseable W a = true -> unparseable W b = false ->
  ArraySort.precedes (dateComparator W) b a = true.
Proof.
  rewrite date_precedes. unfold unparseable.
  destruct (dateOf W a); [discriminate|].
  destruct (dateOf W b); [reflexivity | discriminate].
Qed.

Lemma ordered_dated_sorted (l : list ArticleRecord) :
  ArraySort.ordered (dateComparator W) l ->
  StronglySorted (notOlder W) (filter (fun a => negb (unparseable W a)) l).
Proof.
  induction l as [|a l IH]; simpl; [constructor|].
  intros [Hall Hord]. specialize (IH Hord).
  destruct (unparseable W a) eqn:Ha; simpl; [assumption|].
  constructor; [assumption|].
  apply Forall_forall. intros b Hb. apply filter_In in Hb as [Hin Hpb].
  rewrite Forall_forall in Hall. specialize (Hall _ Hin).
  rewrite date_precedes in Hall. unfold unparseable, notOlder in *.
  destruct (dateOf W a), (dateOf W b); try discriminate.
  apply Z.ltb_ge in Hall. exact Hall.
Qed.

End SortByDate.

Lemma Permutation_filter' {A} (f : A -> bool) (l l' : list A) :
  Permutation l l' -> Permutation (filter f l) (filter f l').
Proof.
  induction 1 as [| x l l' _ IH | x y l | l l' l'' _ IH1 _ IH2]; simpl.
  - constructor.
  - destruct (f x); [now constructor | assumption].
  - destruct (f x), (f y); try apply Permutation_refl. constructor.
  - now apply Permutation_trans with (filter f l').
Qed.

(** C6.  The ["date"] sort gives the records whose date parses, newest
    first, followed by the records whose date does not parse, these in the
    order they had. *)
Theorem sortBy_date_newest_first_unparseable_last
    (W : World) (keyword : string) (l : list ArticleRecord) :
  exists dated,
    sortArticles W keyword "date" l = dated ++ filter (unparseable W) l
    /\ Permutation dated (filter (fun a => negb (unparseable W a)) l)
    /\ StronglySorted (notOlder W) dated.
Proof.
  exists (filter (fun a => negb (unparseable W a))
                 (ArraySort.sort (dateComparator W) l)).
  change (sortArticles W keyword "date" l)
    with (ArraySort.sort (dateComparator W) l).
  pose proof (sort_ordered (dateComparator W) (date_precedes_asym W)
                (date_precedes_negtrans W) l) as Hord.
  repeat split.
  - rewrite <- (sort_stable (dateComparator W) (date_precedes_asym W)
                  (date_precedes_negtrans W) (unparseable W)
                  (unparseable_unordered W) l).
    apply (ordered_partition (dateComparator W));
      [apply parseable_precedes_unparseable | exact Hord].
  - apply Permutation_filter', Permutation_sym, sort_perm.
  - apply ordered_dated_sorted, Hord.
Qed.

Section SortByRelevance.
Variable kw : string.

Lemma relevance_precedes (a b : ArticleRecord) :
  ArraySort.precedes (relevanceComparator kw) a b =
  hasKeywordInTitle kw a && negb (hasKeywordInTitle kw b).
Proof.
  unfold ArraySort.precedes, relevanceComparator.
  destruct (hasKeywordInTitle kw a), (hasKeywordInTitle kw b); reflexivity.
Qed.

Lemma relevance_precedes_asym (a b : ArticleRecord) :
  ArraySort.precedes (relevanceComparator kw) a b = true ->
  ArraySort.precedes (relevanceComparator kw) b a = false.
Proof.
  rewrite !relevance_precedes.
  destruct (hasKeywordInTitle kw a), (hasKeywordInTitle kw b); auto.
Qed.

Lemma relevance_precedes_negtrans (p a b : ArticleRecord) :
  ArraySort.precedes (relevanceComparator kw) p a = true ->
  ArraySort.precedes (relevanceComparator kw) b a = false ->
  ArraySort.precedes (relevanceComparator kw) p b = true.
Proof.
  rewrite !relevance_precedes.
  destruct (hasKeywordInTitle kw p), (hasKeywordInTitle kw a),
    (hasKeywordInTitle kw b); auto.
Qed.

Lemma relevance_sort_partition (l : list ArticleRecord) :
  ArraySort.sort (relevanceComparator kw) l
  = filter (hasKeywordInTitle kw) l
    ++ filter (fun a => negb (hasKeywordInTitle kw a)) l.
Proof.
  set (without := fun a => negb (hasKeywordInTitle kw a)).
  pose proof (sort_ordered _ relevance_precedes_asym relevance_precedes_negtrans l)
    as Hord.
  assert (Hsep : forall a b, without a = true -> without b = false ->
                 ArraySort.precedes (relevanceComparator kw) b a = true).
  { intros a b Ha Hb. rewrite relevance_precedes. unfold without in *.
    destruct (hasKeywordInTitle kw a), (hasKeywordInTitle kw b);
      try discriminate; reflexivity. }
  rewrite (ordered_partition (relevanceComparator kw) without
             (ArraySort.sort (relevanceComparator kw) l) Hsep Hord) at 1.
  f_equal.
  - erewrite filter_ext.
    + apply (sort_stable _ relevance_precedes_asym relevance_precedes_negtrans
               (hasKeywordInTitle kw)).
      intros a b _ Hb. rewrite relevance_precedes, Hb. apply andb_false_r.
    + intros a. unfold without. apply negb_involutive.
  - apply (sort_stable _ relevance_precedes_asym relevance_precedes_negtrans
             without).
    intros a b Ha _. rewrite relevance_precedes. unfold without in Ha.
    destruct (hasKeywordInTitle kw a); [discriminate | reflexivity].
Qed.

End SortByRelevance.

(** C9.  With a non-empty keyword the ["relevance"] sort is the stable
    partition: the records whose title contains the keyword, ignoring case,
    in their original order, then the other records in their original
    order. *)
Theorem sortBy_relevance_stable_partition
    (W : World) (keyword : string) (l : list ArticleRecord) :
  isEmpty keyword = false ->
  sortArticles W keyword "relevance" l
  = filter (hasKeywordInTitle (toLowerCase keyword)) l
    ++ filter (fun a => negb (hasKeywordInTitle (toLowerCase keyword) a)) l.
Proof.
  intros Hk. unfold sortArticles. rewrite Hk.
  cbn [String.eqb Ascii.eqb Bool.eqb negb andb].
  apply relevance_sort_partition.
Qed.

(** The examples of §8 of the specification. *)
Example date_sort_example :
  map publicationDate
      (sortArticles datesWorld EmptyString "date"
         [dated "a" "2024-01-01"; dated "b" "Unknown"; dated "c" "2024-06-01"])
  = ["2024-06-01"; "2024-01-01"; "Unknown"].
Proof. reflexivity. Qed.

Example relevance_sort_example :
  map title
      (sortArticles datesWorld "ai" "relevance"
         [dated "Markets rally" "Unknown"; dated "AI breakthrough" "Unknown";
          dated "Rain tomorrow" "Unknown"])
  = ["AI breakthrough"; "Rain tomorrow"; "Markets rally"].
Proof. reflexivity. Qed.

Lemma sortBy_relevance_stable_partition_witness :
  isEmpty "ai" = false
  /\ sortArticles datesWorld "ai" "relevance"
       [dated "Markets rally" "Unknown"; dated "AI breakthrough" "Unknown";
        dated "Rain tomorrow" "Unknown"]
     = filter (hasKeywordInTitle (toLowerCase "ai"))
         [dated "Markets rally" "Unknown"; dated "AI breakthrough" "Unknown";
          dated "Rain tomorrow" "Unknown"]
       ++ filter (fun a => negb (hasKeywordInTitle (toLowerCase "ai") a))
            [dated "Markets rally" "Unknown"; dated "AI breakthrough" "Unknown";
             dated "Rain tomorrow" "Unknown"].
Proof.
  split; [reflexivity|].
  apply (sortBy_relevance_stable_partition datesWorld "ai"); reflexivity.
Defined.

(** ** The classifier on the specification's examples *)

Example classify_dated_story :
  isLikelyArticleUrl classifierWorld "https://site.com/2024/05/01/story"
  = Fulfilled true.
Proof. reflexivity. Qed.

Example classify_section_tech :
  isLikelyArticleUrl classifierWorld "https://site.com/section/tech"
  = Fulfilled false.
Proof. reflexivity. Qed.

Lemma isLikelyArticleUrl_characterisation_witness :
  new_URL classifierWorld "https://site.com/2024/05/01/story" None
  = Fulfilled (siteUrl "/2024/05/01/story")
  /\ exists b,
      isLikelyArticleUrl classifierWorld "https://site.com/2024/05/01/story"
      = Fulfilled b
      /\ b = isArticlePath (pathname (siteUrl "/2024/05/01/story")).
Proof.
  split; [reflexivity|].
  destruct (isLikelyArticleUrl_characterisation classifierWorld
              "https://site.com/2024/05/01/story" (siteUrl "/2024/05/01/story")
              eq_refl) as (b & Hb & Hpath & _).
  exists b. split; assumption.
Defined.

(** C5, as the claim states it, fails on a path dated 2019 and on a path
    whose last segment is a word of the vocabulary: the words of the
    specification make both article-like, the code makes neither. *)
Lemma classifier_year_2019_counterexample :
  specIsArticleLike "/2019/05/01/story" = true
  /\ isLikelyArticleUrl classifierWorld "https://site.com/2019/05/01/story"
     = Fulfilled false
  /\ specIsArticleLike "/section/tech" = true
  /\ isLikelyArticleUrl classifierWorld "https://site.com/section/tech"
     = Fulfilled false.
Proof. repeat split; reflexivity. Qed.

(** ** [scrapeArticleDetails] *)

(** C2.  Whatever its arguments and whatever the network answers, the
    [try] block of [scrapeArticleDetails] throws on its first read of [$],
    which is still uninitialised; no scope of the handler declares [title],
    [author], [publicationDate], [source] or [articleBody], so the handler
    throws on [title]; the call rejects and never returns a record. *)
Theorem scrapeArticleDetails_always_rejects
    (W : World) (articleUrl fallbackTitle siteName : string) :
  let scope :=
    functionScope (scrapeArticleDetailsParams articleUrl fallbackTitle siteName) in
  scrapeArticleDetailsTry W scope
  = Rejected (referenceError "Cannot access '$' before initialization")
  /\ (forall e x,
         In x ["title"; "author"; "publicationDate"; "source"; "articleBody"] ->
         resolveBinding x ([] :: [("error", Initialized (VError e))] :: scope)
         = Rejected (referenceError (x ++ " is not defined")))
  /\ scrapeArticleDetails W articleUrl fallbackTitle siteName
     = Rejected (referenceError "title is not defined")
  /\ (forall record,
         scrapeArticleDetails W articleUrl fallbackTitle siteName
         <> Fulfilled record).
Proof.
  intros scope. split; [reflexivity|]. split; [|split].
  - intros e x Hx. simpl in Hx.
    repeat (destruct Hx as [<-|Hx]; [reflexivity|]). contradiction.
  - reflexivity.
  - intros record H.
    assert (E : scrapeArticleDetails W articleUrl fallbackTitle siteName
                = Rejected (referenceError "title is not defined")) by reflexivity.
    rewrite E in H. discriminate.
Qed.

Lemma scrapeArticleDetails_rejects (W : World) (u f s : string) :
  scrapeArticleDetails W u f s = Rejected (referenceError "title is not defined").
Proof. reflexivity. Qed.

Lemma scrapeCandidate_degraded (W : World) (siteName : string) (linkObj : LinkObj) :
  scrapeCandidate W siteName linkObj = degradedRecord siteName linkObj.
Proof. reflexivity. Qed.

(** ** Link discovery *)

Section Discovery.
Variables (W : World) (baseUrl : string).

Lemma linkObjEqb_eq (a b : LinkObj) : linkObjEqb a b = true <-> a = b.
Proof.
  destruct a as [u t], b as [u' t']. unfold linkObjEqb. simpl.
  rewrite andb_true_iff, !String.eqb_eq. split.
  - intros [-> ->]. reflexivity.
  - intros [= -> ->]. now split.
Qed.

Lemma setAdd_length (x : LinkObj) (s : list LinkObj) :
  length (setAdd x s) <= S (length s).
Proof.
  unfold setAdd. destruct (existsb (linkObjEqb x) s); [lia|].
  rewrite length_app. simpl. lia.
Qed.

Lemma setAdd_NoDup (x : LinkObj) (s : list LinkObj) :
  NoDup s -> NoDup (setAdd x s).
Proof.
  intros Hnd. unfold setAdd. destruct (existsb (linkObjEqb x) s) eqn:E; [assumption|].
  assert (Hnotin : ~ In x s).
  { intros Hin. assert (existsb (linkObjEqb x) s = true).
    { apply existsb_exists. exists x. split; [assumption|]. now apply linkObjEqb_eq. }
    congruence. }
  clear E. induction s as [|y s IH]; simpl.
  - constructor; [intros [] | constructor].
  - inversion Hnd as [|? ? Hy Hs]; subst. constructor.
    + rewrite in_app_iff. simpl. intros [H|[H|[]]]; [contradiction|].
      apply Hnotin. now left.
    + apply IH; [assumption|]. intros H. apply Hnotin. now right.
Qed.

Lemma setAdd_In (x y : LinkObj) (s : list LinkObj) :
  In y (setAdd x s) -> y = x \/ In y s.
Proof.
  unfold setAdd. destruct (existsb (linkObjEqb x) s); [auto|].
  rewrite in_app_iff. simpl. intuition.
Qed.

Lemma visitAnchor_invariant (els : list Node) (found found' : list LinkObj)
    (el : Node) :
  In el els ->
  foundInvariant W baseUrl els found ->
  visitAnchor W baseUrl found el = Fulfilled found' ->
  foundInvariant W baseUrl els found'.
Proof.
  intros Hin (Hlen & Hnd & Hall). unfold visitAnchor.
  destruct (10 <=? length found) eqn:Hfull.
  { intros [= <-]. now repeat split. }
  apply Nat.leb_gt in Hfull.
  destruct (nodeAttr el "href") as [h|] eqn:Hh;
    [|intros [= <-]; now repeat split].
  destruct (negb (isEmpty h) && (10 <? String.length (trim (nodeText el)))
            && negb (includes h "tag") && negb (includes h "mailto")) eqn:Hc;
    [|intros [= <-]; now repeat split].
  apply andb_true_iff in Hc as [Hc Hmail].
  apply andb_true_iff in Hc as [Hc Htag].
  apply andb_true_iff in Hc as [Hne Htxt].
  apply negb_true_iff in Hmail, Htag, Hne. apply Nat.ltb_lt in Htxt.
  assert (Hstep : forall fullUrl,
             discoveredFrom W baseUrl els (fullUrl, trim (nodeText el)) ->
             foundInvariant W baseUrl els (setAdd (fullUrl, trim (nodeText el)) found)).
  { intros fullUrl Hd. repeat split.
    - pose proof (setAdd_length (fullUrl, trim (nodeText el)) found). lia.
    - now apply setAdd_NoDup.
    - apply Forall_forall. intros y Hy. apply setAdd_In in Hy as [->|Hy];
        [assumption|]. rewrite Forall_forall in Hall. now apply Hall. }
  destruct (startsWith h "http") eqn:Hhttp.
  - cbn [bind]. intros [= <-]. apply Hstep.
    exists el, h. do 6 (split; [auto|]). split; [|assumption].
    left. now split.
  - destruct (new_URL W h (Some baseUrl)) as [u|e] eqn:Hu; cbn [bind];
      [|discriminate].
    intros [= <-]. apply Hstep.
    exists el, h. do 6 (split; [auto|]). split; [|assumption].
    right. split; [assumption|]. now exists u.
Qed.

Lemma linkObjEqb_refl (x : LinkObj) : linkObjEqb x x = true.
Proof. now apply linkObjEqb_eq. Qed.

Lemma setAdd_keeps (x y : LinkObj) (s : list LinkObj) :
  In y s -> In y (setAdd x s).
Proof.
  unfold setAdd. destruct (existsb (linkObjEqb x) s); [auto|].
  intros H. apply in_or_app. now left.
Qed.

Lemma setAdd_has (x : LinkObj) (s : list LinkObj) : In x (setAdd x s).
Proof.
  unfold setAdd. destruct (existsb (linkObjEqb x) s) eqn:E.
  - apply existsb_exists in E as (y & Hy & Heq).
    apply linkObjEqb_eq in Heq. now subst y.
  - apply in_or_app. right. now left.
Qed.

Lemma setAdd_grows (x : LinkObj) (s : list LinkObj) :
  length s <= length (setAdd x s).
Proof.
  unfold setAdd. destruct (existsb (linkObjEqb x) s); [lia|].
  rewrite length_app. simpl. lia.
Qed.

(** The set only grows. *)
Lemma visitAnchor_grows (found found' : list LinkObj) (el : Node) :
  visitAnchor W baseUrl found el = Fulfilled found' ->
  length found <= length found' /\ (forall c, In c found -> In c found').
Proof.
  unfold visitAnchor.
  destruct (10 <=? length found); [intros [= <-]; now split|].
  destruct (nodeAttr el "href") as [h|]; [|intros [= <-]; now split].
  destruct (_ && _); [|intros [= <-]; now split].
  destruct (if startsWith h "http" then _ else _) as [fullUrl|]; cbn [bind];
    [|discriminate].
  intros [= <-]. split; [apply setAdd_grows | intros c; apply setAdd_keeps].
Qed.

Lemma foldM_visitAnchor_grows (l : list Node) :
  forall found found',
    foldM (visitAnchor W baseUrl) l found = Fulfilled found' ->
    length found <= length found' /\ (forall c, In c found -> In c found').
Proof.
  induction l as [|el l IH]; intros found found'; simpl.
  - intros [= <-]. now split.
  - destruct (visitAnchor W baseUrl found el) as [found1|] eqn:Hv; cbn [bind];
      [|discriminate].
    intros H. apply visitAnchor_grows in Hv as [Hlen1 Hin1].
    apply IH in H as [Hlen2 Hin2]. split; [lia | auto].
Qed.

(** Below the cap, the pair of a qualifying anchor is in the set after the
    anchor is visited. *)
Lemma visitAnchor_complete (found found' : list LinkObj) (el : Node) (c : LinkObj) :
  length found < 10 ->
  visitAnchor W baseUrl found el = Fulfilled found' ->
  discoveredFrom W baseUrl [el] c ->
  In c found'.
Proof.
  intros Hlen Hv (el' & h & Hin & Hh & Htag & Hmail & Htxt & Hlong & Hurl & Hne).
  destruct Hin as [<-|[]]. revert Hv. unfold visitAnchor.
  apply Nat.leb_gt in Hlen. rewrite Hlen, Hh, Hne, Htag, Hmail.
  rewrite Htxt in Hlong. apply Nat.ltb_lt in Hlong. rewrite Hlong.
  cbn [negb andb]. destruct c as [u t]. cbn [fst snd] in *. subst t.
  destruct Hurl as [[Hhttp ->]|(Hhttp & r & Hr & ->)]; rewrite Hhttp.
  - cbn [bind]. intros [= <-]. apply setAdd_has.
  - rewrite Hr. cbn [bind]. intros [= <-]. apply setAdd_has.
Qed.

Lemma discoveredFrom_cons (el : Node) (l : list Node) (c : LinkObj) :
  discoveredFrom W baseUrl (el :: l) c ->
  discoveredFrom W baseUrl [el] c \/ discoveredFrom W baseUrl l c.
Proof.
  intros (el' & h & [<-|Hin] & Hrest).
  - left. exists el, h. split; [now left | exact Hrest].
  - right. exists el', h. split; [exact Hin | exact Hrest].
Qed.

Lemma foldM_visitAnchor_complete (l : list Node) :
  forall found found',
    foldM (visitAnchor W baseUrl) l found = Fulfilled found' ->
    length found' < 10 ->
    forall c, discoveredFrom W baseUrl l c -> In c found'.
Proof.
  induction l as [|el l IH]; intros found found'; simpl.
  - intros _ _ c (el' & h & [] & _).
  - destruct (visitAnchor W baseUrl found el) as [found1|] eqn:Hv; cbn [bind];
      [|discriminate].
    intros H Hlen c Hc.
    pose proof (foldM_visitAnchor_grows l _ _ H) as [Hlen2 Hin2].
    pose proof (visitAnchor_grows _ _ _ Hv) as [Hlen1 _].
    apply discoveredFrom_cons in Hc as [Hc|Hc].
    + apply Hin2. eapply visitAnchor_complete; [|exact Hv|exact Hc]. lia.
    + eapply IH; eauto.
Qed.

Lemma foldM_visitAnchor_invariant (els l : list Node) :
  (forall el, In el l -> In el els) ->
  forall found found',
    foundInvariant W baseUrl els found ->
    foldM (visitAnchor W baseUrl) l found = Fulfilled found' ->
    foundInvariant W baseUrl els found'.
Proof.
  induction l as [|el l IH]; intros Hsub found found' Hinv; simpl.
  - intros [= <-]. assumption.
  - destruct (visitAnchor W baseUrl found el) as [found1|e] eqn:Hv; cbn [bind];
      [|discriminate].
    apply IH; [intros; apply Hsub; now right|].
    eapply visitAnchor_invariant; eauto. apply Hsub. now left.
Qed.

Lemma collectLinks_invariant (doc : Doc) (found : list LinkObj) :
  collectLinks W doc baseUrl = Fulfilled found ->
  foundInvariant W baseUrl (flat_map (select doc) linkSelectors) found.
Proof.
  unfold collectLinks. apply foldM_visitAnchor_invariant; [auto|].
  repeat split; [simpl; lia | constructor | constructor].
Qed.

Lemma In_firstn {A} (n : nat) (l : list A) (x : A) :
  In x (firstn n l) -> In x l.
Proof.
  revert n. induction l as [|a l IH]; intros [|n]; simpl; try tauto.
  intros [H|H]; [now left | right; eauto].
Qed.

Lemma NoDup_firstn {A} (n : nat) (l : list A) : NoDup l -> NoDup (firstn n l).
Proof.
  revert n. induction l as [|a l IH]; intros [|n] Hnd; simpl; try constructor.
  - inversion Hnd; subst. intros Hin. apply In_firstn in Hin. contradiction.
  - inversion Hnd; subst. now apply IH.
Qed.

Lemma Forall_firstn {A} (P : A -> Prop) (n : nat) (l : list A) :
  Forall P l -> Forall P (firstn n l).
Proof.
  intros H. apply Forall_forall. intros x Hx. apply In_firstn in Hx.
  rewrite Forall_forall in H. now apply H.
Qed.

End Discovery.

(** C8, as amended.  Link discovery returns the first 8 of at most 10
    collected links.  Every link comes from an anchor whose trimmed text is
    longer than 10 characters and whose [href] attribute, as written, is
    non-empty and contains neither "tag" nor "mailto" (the resolved URL of
    an entry may contain either).  The collection is keyed by the exact
    (resolved URL, text) pair: no pair occurs twice, and as long as fewer
    than 10 links are collected the pair of every qualifying anchor is in
    it, so one URL under two texts gives two entries. *)
Theorem discoverLinks_bounded_filtered_deduplicated
    (W : World) (doc : Doc) (baseUrl : string) (links : list LinkObj) :
  discoverLinks W doc baseUrl = Fulfilled links ->
  length links <= 8
  /\ (exists foundLinks,
         collectLinks W doc baseUrl = Fulfilled foundLinks
         /\ length foundLinks <= 10
         /\ links = firstn 8 foundLinks
         /\ NoDup foundLinks
         /\ (length foundLinks < 10 ->
             forall c,
               discoveredFrom W baseUrl (flat_map (select doc) linkSelectors) c ->
               In c foundLinks))
  /\ NoDup links
  /\ Forall (discoveredFrom W baseUrl (flat_map (select doc) linkSelectors)) links
  /\ discoverLinks W
       [("h2 a", [anchor "https://example.com/story/one" "First headline of the day";
                  anchor "https://example.com/story/one" "Another text for story one"])]
       baseUrl
     = Fulfilled [("https://example.com/story/one", "First headline of the day");
                  ("https://example.com/story/one", "Another text for story one")].
Proof.
  unfold discoverLinks.
  destruct (collectLinks W doc baseUrl) as [found|e] eqn:Hc; cbn [bind];
    [|discriminate].
  intros Heq.
  assert (Hl : firstn 8 found = links) by (injection Heq; auto).
  clear Heq. subst links.
  destruct (collectLinks_invariant W baseUrl doc found Hc) as (Hlen & Hnd & Hall).
  split; [apply firstn_le_length|].
  split.
  { exists found. do 4 (split; [auto|]).
    intros Hlt c Hd. unfold collectLinks in Hc.
    exact (foldM_visitAnchor_complete W baseUrl _ _ _ Hc Hlt c Hd). }
  split; [now apply NoDup_firstn|].
  split; [now apply Forall_firstn|].
  reflexivity.
Qed.

Lemma discoverLinks_bounded_filtered_deduplicated_witness :
  discoverLinks listingWorld listingDoc "https://example.com" = Fulfilled listingLinks
  /\ length listingLinks <= 8
  /\ NoDup listingLinks
  /\ Forall (discoveredFrom listingWorld "https://example.com"
               (flat_map (select listingDoc) linkSelectors)) listingLinks.
Proof.
  split; [reflexivity|].
  destruct (discoverLinks_bounded_filtered_deduplicated listingWorld listingDoc
              "https://example.com" listingLinks eq_refl)
    as (Hlen & _ & Hnd & Hall & _).
  repeat split; assumption.
Defined.

(** C8, as the claim states it, fails for the URL of an entry: a relative
    link on a site whose host name contains "tag", and a link whose scheme
    is written [MAILTO:], pass the test on the attribute and come back as
    URLs that contain "tag" and "mailto". *)
Lemma discovered_urls_contain_tag_and_mailto_counterexample :
  discoverLinks tagWorld tagDoc "https://tagesschau.example"
  = Fulfilled [("https://tagesschau.example/a/nel", "A report from the newsroom");
               ("mailto:desk@example.com", "Write to the news desk")]
  /\ includes "https://tagesschau.example/a/nel" "tag" = true
  /\ includes "mailto:desk@example.com" "mailto" = true
  /\ scrapeNews tagWorld "https://tagesschau.example/" EmptyString "default"
     = Fulfilled
         [plainRecord "A report from the newsroom"
                      "https://tagesschau.example/a/nel" "Unknown" "Unknown"
                      "tagesschau.example";
          plainRecord "Write to the news desk" "mailto:desk@example.com"
                      "Unknown" "Unknown" "tagesschau.example"].
Proof. repeat split; reflexivity. Qed.

(** ** The dynamic path *)

Lemma scrapeDynamicSiteTry_listing (W : World) (url : string) (parsed : URLRecord)
    (homepage : string) (links : list LinkObj) :
  new_URL W url None = Fulfilled parsed ->
  isArticlePath (pathname parsed) = false ->
  axios_get W url (Some 10000%Z) = Fulfilled homepage ->
  discoverLinks W (cheerio_load W homepage) (origin parsed) = Fulfilled links ->
  scrapeDynamicSiteTry W url
  = Fulfilled (map (degradedRecord (hostname parsed)) links).
Proof.
  intros Hu Hp Hget Hd. unfold scrapeDynamicSiteTry, isLikelyArticleUrl.
  rewrite Hu. cbn [bind]. rewrite Hp, Hget. cbn [bind]. rewrite Hd. cbn [bind].
  f_equal.
Qed.

Lemma scrapeNews_dynamic (W : World) (targetUrl keyword sortBy : string) :
  isEmpty targetUrl = false ->
  scrapeNews W targetUrl keyword sortBy
  = bind (scrapeDynamicSite W targetUrl)
         (fun l => Fulfilled (sortArticles W keyword sortBy
                                (filterByKeyword keyword l))).
Proof.
  intros Hne. unfold scrapeNews, gatherArticles. rewrite Hne. cbn [negb].
  destruct (scrapeDynamicSite W targetUrl); reflexivity.
Qed.

(** C7.  On a listing page that is fetched and searched without failure,
    each candidate's extraction fails and is replaced by the degraded
    record made of the anchor text, the resolved URL, "Unknown" twice and
    the host name; the records come in discovery order, and [scrapeNews]
    filters and sorts exactly this list (and returns it unchanged when no
    keyword and no sort is asked for). *)
Theorem listing_candidates_degrade_in_discovery_order
    (W : World) (url : string) (parsed : URLRecord) (homepage : string)
    (links : list LinkObj) :
  isEmpty url = false ->
  new_URL W url None = Fulfilled parsed ->
  isArticlePath (pathname parsed) = false ->
  axios_get W url (Some 10000%Z) = Fulfilled homepage ->
  discoverLinks W (cheerio_load W homepage) (origin parsed) = Fulfilled links ->
  Forall (fun c => isRejected (scrapeArticleDetails W (fst c) (snd c)
                                 (hostname parsed)) = true) links
  /\ scrapeDynamicSite W url
     = Fulfilled (map (fun c => {| title := snd c; link := Some (fst c);
                                   author := "Unknown";
                                   publicationDate := "Unknown";
                                   source := hostname parsed;
                                   content := None; error := None |}) links)
  /\ scrapeNews W url EmptyString "default"
     = Fulfilled (map (degradedRecord (hostname parsed)) links)
  /\ (forall keyword sortBy,
         scrapeNews W url keyword sortBy
         = Fulfilled (sortArticles W keyword sortBy
                        (filterByKeyword keyword
                           (map (degradedRecord (hostname parsed)) links)))).
Proof.
  intros Hne Hu Hp Hget Hd.
  pose proof (scrapeDynamicSiteTry_listing W url parsed homepage links
                Hu Hp Hget Hd) as Htry.
  assert (Hdyn : scrapeDynamicSite W url
                 = Fulfilled (map (degradedRecord (hostname parsed)) links))
    by (unfold scrapeDynamicSite; now rewrite Htry).
  split; [apply Forall_forall; intros c _; reflexivity|].
  split; [exact Hdyn|].
  split.
  - rewrite scrapeNews_dynamic by assumption. rewrite Hdyn. reflexivity.
  - intros keyword sortBy.
    rewrite scrapeNews_dynamic by assumption. rewrite Hdyn. reflexivity.
Qed.

Lemma listing_candidates_degrade_in_discovery_order_witness :
  scrapeNews listingWorld "https://example.com/" EmptyString "default"
  = Fulfilled
      [plainRecord "First headline of the day" "https://example.com/story/one"
                   "Unknown" "Unknown" "example.com";
       plainRecord "Second headline of the day" "https://example.com/story/two"
                   "Unknown" "Unknown" "example.com";
       plainRecord "Another text for story one" "https://example.com/story/one"
                   "Unknown" "Unknown" "example.com"].
Proof.
  exact (proj1 (proj2 (proj2
    (listing_candidates_degrade_in_discovery_order listingWorld
       "https://example.com/" exampleUrl "listing-page" listingLinks
       eq_refl eq_refl eq_refl eq_refl eq_refl)))).
Defined.

Lemma scrapeDynamicSiteTry_listing_failure (W : World) (url : string) (err : JsError) :
  (new_URL W url None = Rejected err
   \/ exists parsed,
       new_URL W url None = Fulfilled parsed
       /\ isArticlePath (pathname parsed) = false
       /\ axios_get W url (Some 10000%Z) = Rejected err) ->
  scrapeDynamicSiteTry W url = Rejected err.
Proof.
  unfold scrapeDynamicSiteTry, isLikelyArticleUrl.
  intros [Hu|(parsed & Hu & Hp & Hget)]; rewrite Hu; cbn [bind];
    [reflexivity|].
  rewrite Hp, Hget. reflexivity.
Qed.

Lemma sortArticles_short (W : World) (keyword sortBy : string)
    (l : list ArticleRecord) :
  length l <= 1 -> sortArticles W keyword sortBy l = l.
Proof.
  intros Hl. unfold sortArticles.
  destruct l as [|a [|b l]]; [| |simpl in Hl; lia];
    destruct (String.eqb sortBy "date");
    destruct (String.eqb sortBy "relevance" && negb (isEmpty keyword));
    reflexivity.
Qed.

(** C4, as amended.  When the URL does not parse, or it is a listing URL
    whose page cannot be fetched, [scrapeDynamicSite] returns the one
    synthetic record (source "Error", author "System", a title naming the
    URL, the failure's message in [error]) and never fails; [scrapeNews]
    returns that record when the keyword is empty or occurs in its title,
    author or source, and the empty sequence otherwise. *)
Theorem listing_failure_reported_as_error_record
    (W : World) (url keyword sortBy : string) (err : JsError) :
  isEmpty url = false ->
  (new_URL W url None = Rejected err
   \/ exists parsed,
       new_URL W url None = Fulfilled parsed
       /\ isArticlePath (pathname parsed) = false
       /\ axios_get W url (Some 10000%Z) = Rejected err) ->
  exists record,
    scrapeDynamicSite W url = Fulfilled [record]
    /\ source record = "Error"
    /\ author record = "System"
    /\ title record = ("Error scraping " ++ url)%string
    /\ link record = Some url
    /\ error record = Some (message err)
    /\ scrapeNews W url keyword sortBy
       = Fulfilled (if isEmpty keyword
                       || matchesKeyword (toLowerCase keyword) record
                    then [record] else []).
Proof.
  intros Hne Hfail. exists (errorRecord W url err).
  assert (Hdyn : scrapeDynamicSite W url = Fulfilled [errorRecord W url err]).
  { unfold scrapeDynamicSite.
    now rewrite (scrapeDynamicSiteTry_listing_failure W url err Hfail). }
  split; [exact Hdyn|]. repeat (split; [reflexivity|]).
  rewrite scrapeNews_dynamic by assumption. rewrite Hdyn. cbn [bind]. f_equal.
  unfold filterByKeyword. destruct (isEmpty keyword); cbn [negb orb].
  - apply sortArticles_short. simpl. lia.
  - cbn [filter].
    destruct (matchesKeyword (toLowerCase keyword) (errorRecord W url err));
      apply sortArticles_short; simpl; lia.
Qed.

Lemma listing_failure_reported_as_error_record_witness :
  isEmpty "https://example.com/" = false
  /\ exists record,
      scrapeDynamicSite (listingDownWorld exampleClock) "https://example.com/"
      = Fulfilled [record]
      /\ source record = "Error"
      /\ error record = Some "Network Error"
      /\ scrapeNews (listingDownWorld exampleClock) "https://example.com/"
           "error" "date"
         = Fulfilled [record].
Proof.
  split; [reflexivity|].
  destruct (listing_failure_reported_as_error_record
              (listingDownWorld exampleClock) "https://example.com/" "error" "date"
              (mkError "AxiosError" "Network Error") eq_refl
              (or_intror (ex_intro _ exampleUrl
                            (conj eq_refl (conj eq_refl eq_refl)))))
    as (record & Hdyn & Hsrc & _ & Htitle & _ & Herr & Hnews).
  exists record. split; [exact Hdyn|]. split; [exact Hsrc|].
  split; [exact Herr|].
  rewrite Hnews. unfold matchesKeyword. rewrite Htitle. reflexivity.
Defined.

(** C4, as the claim states it, fails when the request carries a keyword
    that the error record does not contain: the listing fetch fails and
    [scrapeNews] returns the empty sequence. *)
Lemma error_record_filtered_out_counterexample :
  isEmpty "https://example.com/" = false
  /\ isRejected (axios_get (listingDownWorld exampleClock)
                           "https://example.com/" (Some 10000%Z)) = true
  /\ scrapeNews (listingDownWorld exampleClock) "https://example.com/"
                "zzz" "default"
     = Fulfilled [].
Proof. repeat split; reflexivity. Qed.

(** ** The default sites *)

Lemma scrapeAdapter_listing_rejects (W : World) (baseUrl selector : string)
    (accept : string -> bool) (prefix authorSelector authorDefault sourceDefault : string) :
  isRejected (axios_get W baseUrl None) = true ->
  isRejected (scrapeAdapter W baseUrl selector accept prefix authorSelector
                authorDefault sourceDefault) = true.
Proof.
  unfold scrapeAdapter. destruct (axios_get W baseUrl None); [discriminate|].
  reflexivity.
Qed.

Lemma scrapeHackerNews_listing_rejects (W : World) :
  isRejected (axios_get W "https://news.ycombinator.com/" None) = true ->
  isRejected (scrapeHackerNews W) = true.
Proof.
  unfold scrapeHackerNews.
  destruct (axios_get W "https://news.ycombinator.com/" None); [discriminate|].
  reflexivity.
Qed.

Lemma promiseAll4_rejects {A} (a b c d : Outcome A) :
  isRejected a || isRejected b || isRejected c || isRejected d = true ->
  isRejected (promiseAll4 a b c d) = true.
Proof. destruct a, b, c, d; simpl; auto. Qed.

Lemma scrapeNews_default_rejects (W : World) (keyword sortBy : string) :
  isRejected (scrapeBBC W) || isRejected (scrapeVerge W)
  || isRejected (scrapeCNN W) || isRejected (scrapeHackerNews W) = true ->
  isRejected (scrapeNews W EmptyString keyword sortBy) = true.
Proof.
  intros H. apply promiseAll4_rejects in H.
  unfold scrapeNews, gatherArticles. cbn [isEmpty negb].
  destruct (promiseAll4 _ _ _ _); [discriminate | reflexivity].
Qed.

(** C3, as amended.  Without a target URL the records of the four
    adapters, when all four fulfil, are concatenated in the order BBC,
    Verge, CNN, Hacker News before filtering and sorting; when the
    listing-page fetch of any one adapter rejects, [scrapeNews] itself
    rejects. *)
Theorem default_sites_in_order_unless_a_listing_fails
    (W : World) (keyword sortBy : string) :
  (forall bbc verge cnn hacker,
      scrapeBBC W = Fulfilled bbc ->
      scrapeVerge W = Fulfilled verge ->
      scrapeCNN W = Fulfilled cnn ->
      scrapeHackerNews W = Fulfilled hacker ->
      scrapeNews W EmptyString keyword sortBy
      = Fulfilled (sortArticles W keyword sortBy
                     (filterByKeyword keyword (bbc ++ verge ++ cnn ++ hacker))))
  /\ (forall listing,
         In listing ["https://www.bbc.com/news"; "https://www.theverge.com/";
                     "https://edition.cnn.com/"; "https://news.ycombinator.com/"] ->
         isRejected (axios_get W listing None) = true ->
         isRejected (scrapeNews W EmptyString keyword sortBy) = true).
Proof.
  split.
  - intros bbc verge cnn hacker Hb Hv Hc Hh.
    unfold scrapeNews, gatherArticles. cbn [isEmpty negb].
    rewrite Hb, Hv, Hc, Hh. reflexivity.
  - intros listing Hin Hrej. apply scrapeNews_default_rejects.
    simpl in Hin. destruct Hin as [<-|[<-|[<-|[<-|[]]]]].
    + unfold scrapeBBC. rewrite scrapeAdapter_listing_rejects by assumption.
      reflexivity.
    + unfold scrapeVerge at 1. rewrite scrapeAdapter_listing_rejects by assumption.
      rewrite orb_true_r. reflexivity.
    + unfold scrapeCNN at 1. rewrite scrapeAdapter_listing_rejects by assumption.
      rewrite !orb_true_r. reflexivity.
    + rewrite scrapeHackerNews_listing_rejects by assumption.
      apply orb_true_r.
Qed.

Lemma default_sites_in_order_unless_a_listing_fails_witness :
  scrapeNews defaultSitesWorld EmptyString EmptyString "default"
  = Fulfilled ([bbcStory] ++ [] ++ [] ++ [hackerNewsStory; hackerNewsBlank])
  /\ isRejected (scrapeNews bbcDownWorld EmptyString EmptyString "default") = true.
Proof.
  split.
  - exact (proj1 (default_sites_in_order_unless_a_listing_fails
                    defaultSitesWorld EmptyString "default")
                 [bbcStory] [] [] [hackerNewsStory; hackerNewsBlank]
                 eq_refl eq_refl eq_refl eq_refl).
  - exact (proj2 (default_sites_in_order_unless_a_listing_fails
                    bbcDownWorld EmptyString "default")
                 "https://www.bbc.com/news" (or_introl eq_refl) eq_refl).
Defined.

(** C3, as the claim states it, fails when one listing page is down: the
    BBC fetch rejects, the other three adapters fulfil, and [scrapeNews]
    rejects instead of returning their records. *)
Lemma bbc_listing_down_counterexample :
  isRejected (axios_get bbcDownWorld "https://www.bbc.com/news" None) = true
  /\ scrapeVerge bbcDownWorld = Fulfilled []
  /\ scrapeCNN bbcDownWorld = Fulfilled []
  /\ scrapeHackerNews bbcDownWorld = Fulfilled [hackerNewsStory; hackerNewsBlank]
  /\ scrapeNews bbcDownWorld EmptyString EmptyString "default"
     = Rejected (mkError "AxiosError" "Network Error").
Proof. repeat split; reflexivity. Qed.

(** C1 at its failing input: a Hacker News row without a title anchor
    gives a record whose [title] is empty and whose [link] is [undefined],
    and [scrapeNews] returns it. *)
Theorem hackerNews_row_without_title_anchor :
  scrapeNews defaultSitesWorld EmptyString EmptyString "default"
  = Fulfilled [bbcStory; hackerNewsStory; hackerNewsBlank]
  /\ title hackerNewsBlank = EmptyString
  /\ link hackerNewsBlank = None.
Proof. repeat split; reflexivity. Qed.

(** ** The clock *)

Section Clock.
Variable W : World.

Lemma restamp_noError (now : string) (l : list ArticleRecord) :
  Forall noError l -> map (restamp now) l = l.
Proof.
  induction 1 as [|a l Ha _ IH]; simpl; [reflexivity|].
  unfold restamp at 1. rewrite Ha, IH. reflexivity.
Qed.

Lemma scrapeAdapter_noError (baseUrl selector : string) (accept : string -> bool)
    (prefix authorSelector authorDefault sourceDefault : string)
    (l : list ArticleRecord) :
  scrapeAdapter W baseUrl selector accept prefix authorSelector authorDefault
                sourceDefault = Fulfilled l ->
  Forall noError l.
Proof.
  unfold scrapeAdapter. destruct (axios_get W baseUrl None); cbn [bind];
    [|discriminate].
  intros [= <-]. apply Forall_forall. intros r Hr.
  apply in_flat_map in Hr as (lnk & _ & Hr). unfold adapterArticle in Hr.
  destruct (axios_get W lnk None); simpl in Hr; [|contradiction].
  destruct Hr as [<-|[]]. reflexivity.
Qed.

Lemma mapM_Forall {A B} (f : A -> Outcome B) (P : B -> Prop) (l : list A) :
  (forall a b, f a = Fulfilled b -> P b) ->
  forall bs, mapM f l = Fulfilled bs -> Forall P bs.
Proof.
  intros Hf. induction l as [|a l IH]; simpl; intros bs.
  - intros [= <-]. constructor.
  - destruct (f a) as [b|] eqn:Hb; cbn [bind]; [|discriminate].
    destruct (mapM f l) as [bs'|]; cbn [bind]; [|discriminate].
    intros [= <-]. constructor; eauto.
Qed.

Lemma hackerNewsRow_noError (url : string) (el : Node) (a : ArticleRecord) :
  hackerNewsRow W url el = Fulfilled a -> noError a.
Proof.
  unfold hackerNewsRow.
  destruct (if truthy _ then _ else _); cbn [bind]; [|discriminate].
  intros [= <-]. reflexivity.
Qed.

Lemma scrapeHackerNews_noError (l : list ArticleRecord) :
  scrapeHackerNews W = Fulfilled l -> Forall noError l.
Proof.
  unfold scrapeHackerNews.
  destruct (axios_get W "https://news.ycombinator.com/" None); cbn [bind];
    [|discriminate].
  destruct (mapM _ _) as [news|] eqn:Hm; cbn [bind]; [|discriminate].
  intros Heq. assert (Hl : firstn 5 news = l) by (injection Heq; auto).
  subst l. apply Forall_firstn.
  eapply mapM_Forall; [|exact Hm]. intros el r. apply hackerNewsRow_noError.
Qed.

Lemma gatherArticles_default_noError (l : list ArticleRecord) :
  gatherArticles W EmptyString = Fulfilled l -> Forall noError l.
Proof.
  unfold gatherArticles, promiseAll4. cbn [isEmpty negb].
  destruct (scrapeBBC W) as [bbc|] eqn:Hb; cbn [bind]; [|discriminate].
  destruct (scrapeVerge W) as [verge|] eqn:Hv; cbn [bind]; [|discriminate].
  destruct (scrapeCNN W) as [cnn|] eqn:Hc; cbn [bind]; [|discriminate].
  destruct (scrapeHackerNews W) as [hacker|] eqn:Hh; cbn [bind]; [|discriminate].
  intros [= <-]. rewrite !Forall_app. repeat split.
  - eapply scrapeAdapter_noError, Hb.
  - eapply scrapeAdapter_noError, Hv.
  - eapply scrapeAdapter_noError, Hc.
  - now apply scrapeHackerNews_noError.
Qed.

Lemma scrapeDynamicSiteTry_noError (url : string) (l : list ArticleRecord) :
  scrapeDynamicSiteTry W url = Fulfilled l -> Forall noError l.
Proof.
  unfold scrapeDynamicSiteTry, isLikelyArticleUrl.
  destruct (new_URL W url None) as [parsed|]; cbn [bind]; [|discriminate].
  destruct (isArticlePath (pathname parsed)).
  - rewrite scrapeArticleDetails_rejects. discriminate.
  - destruct (axios_get W url (Some 10000%Z)); cbn [bind]; [|discriminate].
    destruct (discoverLinks W _ _) as [links|]; cbn [bind]; [|discriminate].
    intros Heq.
    assert (Hl : map (scrapeCandidate W (hostname parsed)) links = l)
      by (injection Heq; auto).
    subst l. apply Forall_forall. intros r Hr.
    apply in_map_iff in Hr as (c & <- & _). reflexivity.
Qed.

Lemma filterByKeyword_Forall (P : ArticleRecord -> Prop) (keyword : string)
    (l : list ArticleRecord) :
  Forall P l -> Forall P (filterByKeyword keyword l).
Proof.
  intros H. unfold filterByKeyword. destruct (negb (isEmpty keyword)); [|assumption].
  apply Forall_forall. intros a Ha. apply filter_In in Ha as [Ha _].
  rewrite Forall_forall in H. now apply H.
Qed.

Lemma sortArticles_Forall (P : ArticleRecord -> Prop) (keyword sortBy : string)
    (l : list ArticleRecord) :
  Forall P l -> Forall P (sortArticles W keyword sortBy l).
Proof.
  intros H. unfold sortArticles.
  destruct (String.eqb sortBy "date");
    [|destruct (String.eqb sortBy "relevance" && negb (isEmpty keyword))];
    try assumption;
    (eapply Permutation_Forall; [apply sort_perm | assumption]).
Qed.

Lemma processed_noError (now keyword sortBy : string) (l : list ArticleRecord) :
  Forall noError l ->
  sortArticles (withClock W now) keyword sortBy (filterByKeyword keyword l)
  = map (restamp now) (sortArticles W keyword sortBy (filterByKeyword keyword l)).
Proof.
  intros H. rewrite restamp_noError.
  - reflexivity.
  - now apply sortArticles_Forall, filterByKeyword_Forall.
Qed.

End Clock.

(** C10, as amended.  [scrapeNews] is a function of its arguments, the
    answers of the fetch, parse, URL and date capabilities, and the reading
    of the clock; the clock shows only in the [publicationDate] of a
    synthetic error record.  Run again at another time against the same
    capabilities, it returns the same sequence with the error record (if
    any) stamped with the new time, and the very same sequence when there is
    no error record. *)
Theorem clock_only_restamps_error_records
    (W : World) (now targetUrl keyword sortBy : string) :
  scrapeNews (withClock W now) targetUrl keyword sortBy
  = mapOutcome (map (restamp now)) (scrapeNews W targetUrl keyword sortBy).
Proof.
  destruct (isEmpty targetUrl) eqn:Hne.
  - destruct targetUrl; [|discriminate].
    unfold scrapeNews.
    change (gatherArticles (withClock W now) EmptyString)
      with (gatherArticles W EmptyString).
    destruct (gatherArticles W EmptyString) as [l|e] eqn:Hg;
      cbn [bind mapOutcome]; [|reflexivity].
    f_equal. apply processed_noError.
    now apply (gatherArticles_default_noError W).
  - rewrite !scrapeNews_dynamic by assumption. unfold scrapeDynamicSite.
    change (scrapeDynamicSiteTry (withClock W now) targetUrl)
      with (scrapeDynamicSiteTry W targetUrl).
    destruct (scrapeDynamicSiteTry W targetUrl) as [l|e] eqn:Ht;
      cbn [bind mapOutcome]; f_equal.
    + apply processed_noError. now apply (scrapeDynamicSiteTry_noError W targetUrl).
    + unfold filterByKeyword. destruct (negb (isEmpty keyword)); cbn [filter].
      * change (matchesKeyword (toLowerCase keyword)
                  (errorRecord (withClock W now) targetUrl e))
          with (matchesKeyword (toLowerCase keyword) (errorRecord W targetUrl e)).
        destruct (matchesKeyword (toLowerCase keyword) (errorRecord W targetUrl e));
          rewrite !sortArticles_short by (simpl; lia); reflexivity.
      * rewrite !sortArticles_short by (simpl; lia). reflexivity.
Qed.

(** C10, as the claim states it, fails: two calls with the same arguments
    against the same capabilities, one second apart, return different
    error records. *)
Lemma error_record_differs_with_the_clock_counterexample :
  axios_get (listingDownWorld exampleClock) = axios_get (listingDownWorld laterClock)
  /\ cheerio_load (listingDownWorld exampleClock)
     = cheerio_load (listingDownWorld laterClock)
  /\ new_URL (listingDownWorld exampleClock) = new_URL (listingDownWorld laterClock)
  /\ Date_parse (listingDownWorld exampleClock)
     = Date_parse (listingDownWorld laterClock)
  /\ scrapeNews (listingDownWorld exampleClock) "https://example.com/"
                EmptyString "default"
     <> scrapeNews (listingDownWorld laterClock) "https://example.com/"
                   EmptyString "default".
Proof.
  repeat split; try reflexivity. vm_compute. discriminate.
Qed.

(** ** The arrays that [scrapeNews] sorts are short

    At most 5 records per adapter and at most 8 on the dynamic path: the
    array handed to [sort] has fewer than 64 elements, the range in which
    V8's sort is run detection followed by binary insertion. *)

Section Sizes.
Variable W : World.

Lemma pushLink_length (accept : string -> bool) (prefix : string)
    (articleLinks : list string) (el : Node) :
  length articleLinks <= 5 ->
  length (pushLink accept prefix articleLinks el) <= 5.
Proof.
  intros H. unfold pushLink. destruct (nodeAttr el "href") as [l|]; [|assumption].
  destruct (negb (isEmpty l) && accept l) ; cbn [andb]; [|assumption].
  destruct (length articleLinks <? 5) eqn:Hlt; [|assumption].
  apply Nat.ltb_lt in Hlt.
  destruct (existsb _ articleLinks); [assumption|].
  rewrite length_app. simpl. lia.
Qed.

Lemma fold_pushLink_length (accept : string -> bool) (prefix : string)
    (els : list Node) (articleLinks : list string) :
  length articleLinks <= 5 ->
  length (fold_left (pushLink accept prefix) els articleLinks) <= 5.
Proof.
  revert articleLinks. induction els as [|el els IH]; intros links H; simpl;
    [assumption|].
  apply IH. now apply pushLink_length.
Qed.

Lemma flat_map_length_le {A B} (f : A -> list B) (l : list A) :
  (forall a, length (f a) <= 1) -> length (flat_map f l) <= length l.
Proof.
  intros Hf. induction l as [|a l IH]; simpl; [lia|].
  rewrite length_app. specialize (Hf a). lia.
Qed.

Lemma scrapeAdapter_length (baseUrl selector : string) (accept : string -> bool)
    (prefix authorSelector authorDefault sourceDefault : string)
    (l : list ArticleRecord) :
  scrapeAdapter W baseUrl selector accept prefix authorSelector authorDefault
                sourceDefault = Fulfilled l ->
  length l <= 5.
Proof.
  unfold scrapeAdapter. destruct (axios_get W baseUrl None) as [homepage|];
    cbn [bind]; [|discriminate].
  intros [= <-].
  eapply Nat.le_trans.
  - apply flat_map_length_le. intros lnk. unfold adapterArticle.
    destruct (axios_get W lnk None); simpl; lia.
  - apply fold_pushLink_length. simpl. lia.
Qed.

Lemma scrapeHackerNews_length (l : list ArticleRecord) :
  scrapeHackerNews W = Fulfilled l -> length l <= 5.
Proof.
  unfold scrapeHackerNews.
  destruct (axios_get W "https://news.ycombinator.com/" None); cbn [bind];
    [|discriminate].
  destruct (mapM _ _) as [news|]; cbn [bind]; [|discriminate].
  intros Heq. assert (Hl : firstn 5 news = l) by (injection Heq; auto).
  subst l. apply firstn_le_length.
Qed.

Lemma scrapeDynamicSite_length (url : string) (l : list ArticleRecord) :
  scrapeDynamicSite W url = Fulfilled l -> length l <= 8.
Proof.
  unfold scrapeDynamicSite.
  destruct (scrapeDynamicSiteTry W url) as [results|err] eqn:Ht.
  - intros [= <-]. revert Ht. unfold scrapeDynamicSiteTry, isLikelyArticleUrl.
    destruct (new_URL W url None) as [parsed|]; cbn [bind]; [|discriminate].
    destruct (isArticlePath (pathname parsed)).
    + rewrite scrapeArticleDetails_rejects. discriminate.
    + destruct (axios_get W url (Some 10000%Z)); cbn [bind]; [|discriminate].
      unfold discoverLinks.
      destruct (collectLinks W _ _) as [found|]; cbn [bind]; [|discriminate].
      intros Heq.
      assert (Hl : map (scrapeCandidate W (hostname parsed)) (firstn 8 found)
                   = results) by (injection Heq; auto).
      subst results. rewrite length_map. apply firstn_le_length.
  - intros [= <-]. simpl. lia.
Qed.

Theorem gatherArticles_length (targetUrl : string) (l : list ArticleRecord) :
  gatherArticles W targetUrl = Fulfilled l -> length l <= 20.
Proof.
  unfold gatherArticles, promiseAll4.
  destruct (negb (isEmpty targetUrl)).
  - destruct (scrapeDynamicSite W targetUrl) as [d|] eqn:Hd; cbn [bind];
      [|discriminate].
    intros [= <-]. apply scrapeDynamicSite_length in Hd. lia.
  - destruct (scrapeBBC W) as [bbc|] eqn:Hb; cbn [bind]; [|discriminate].
    destruct (scrapeVerge W) as [verge|] eqn:Hv; cbn [bind]; [|discriminate].
    destruct (scrapeCNN W) as [cnn|] eqn:Hc; cbn [bind]; [|discriminate].
    destruct (scrapeHackerNews W) as [hacker|] eqn:Hh; cbn [bind]; [|discriminate].
    intros [= <-]. rewrite !length_app.
    apply scrapeAdapter_length in Hb, Hv, Hc.
    apply scrapeHackerNews_length in Hh. lia.
Qed.

Lemma filterByKeyword_length (keyword : string) (l : list ArticleRecord) :
  length (filterByKeyword keyword l) <= length l.
Proof.
  unfold filterByKeyword. destruct (negb (isEmpty keyword)); [|lia].
  apply filter_length_le.
Qed.

Corollary sorted_array_below_64 (targetUrl keyword : string)
    (l : list ArticleRecord) :
  gatherArticles W targetUrl = Fulfilled l ->
  length (filterByKeyword keyword l) < 64.
Proof.
  intros H. apply gatherArticles_length in H.
  pose proof (filterByKeyword_length keyword l). lia.
Qed.

End Sizes.

(* ================================================================== *)
(** * Part III: further properties of the code                         *)
(* ================================================================== *)

(** ** The keyword filter *)

Lemma isEmpty_toLowerCase (s : string) : isEmpty (toLowerCase s) = isEmpty s.
Proof. destruct s; reflexivity. Qed.

Lemma isEmpty_same_lower (k1 k2 : string) :
  toLowerCase k1 = toLowerCase k2 -> isEmpty k1 = isEmpty k2.
Proof.
  intros H. rewrite <- (isEmpty_toLowerCase k1), <- (isEmpty_toLowerCase k2).
  now rewrite H.
Qed.

Lemma filterByKeyword_same_lower (k1 k2 : string) (l : list ArticleRecord) :
  toLowerCase k1 = toLowerCase k2 -> filterByKeyword k1 l = filterByKeyword k2 l.
Proof.
  intros H. unfold filterByKeyword.
  now rewrite (isEmpty_same_lower k1 k2 H), H.
Qed.

Lemma sortArticles_same_lower (W : World) (k1 k2 sortBy : string)
    (l : list ArticleRecord) :
  toLowerCase k1 = toLowerCase k2 ->
  sortArticles W k1 sortBy l = sortArticles W k2 sortBy l.
Proof.
  intros H. unfold sortArticles.
  now rewrite (isEmpty_same_lower k1 k2 H), H.
Qed.

(** X2.  Two keywords that differ only in letter case give the same
    result, whatever the URL and the sort. *)
Theorem keyword_case_is_irrelevant
    (W : World) (targetUrl k1 k2 sortBy : string) :
  toLowerCase k1 = toLowerCase k2 ->
  scrapeNews W targetUrl k1 sortBy = scrapeNews W targetUrl k2 sortBy.
Proof.
  intros H. unfold scrapeNews.
  destruct (gatherArticles W targetUrl); cbn [bind]; [|reflexivity].
  now rewrite (filterByKeyword_same_lower k1 k2 a H),
    (sortArticles_same_lower W k1 k2 sortBy _ H).
Qed.

Lemma keyword_case_is_irrelevant_witness :
  toLowerCase "BBC" = toLowerCase "bbc"
  /\ scrapeNews defaultSitesWorld EmptyString "BBC" "relevance"
     = scrapeNews defaultSitesWorld EmptyString "bbc" "relevance".
Proof.
  split; [reflexivity|].
  apply (keyword_case_is_irrelevant defaultSitesWorld EmptyString "BBC" "bbc"
           "relevance"); reflexivity.
Defined.

Lemma sortArticles_perm (W : World) (keyword sortBy : string)
    (l : list ArticleRecord) :
  Permutation l (sortArticles W keyword sortBy l).
Proof.
  unfold sortArticles.
  destruct (String.eqb sortBy "date");
    [|destruct (String.eqb sortBy "relevance" && negb (isEmpty keyword))];
    try apply Permutation_refl; apply sort_perm.
Qed.

Lemma scrapeNews_of_gathered (W : World) (targetUrl keyword sortBy : string)
    (l : list ArticleRecord) :
  gatherArticles W targetUrl = Fulfilled l ->
  scrapeNews W targetUrl keyword sortBy
  = Fulfilled (sortArticles W keyword sortBy (filterByKeyword keyword l)).
Proof. intros H. unfold scrapeNews. now rewrite H. Qed.

Lemma scrapeNews_gathered_inv (W : World) (targetUrl keyword sortBy : string)
    (out : list ArticleRecord) :
  scrapeNews W targetUrl keyword sortBy = Fulfilled out ->
  exists l, gatherArticles W targetUrl = Fulfilled l
            /\ out = sortArticles W keyword sortBy (filterByKeyword keyword l).
Proof.
  unfold scrapeNews. destruct (gatherArticles W targetUrl) as [l|]; cbn [bind];
    [|discriminate].
  intros Heq. exists l. split; [reflexivity|]. injection Heq; auto.
Qed.

(** X3.  Sorting neither drops nor repeats a record: what [scrapeNews]
    returns is a rearrangement of the gathered records that pass the
    keyword filter, under every [sortBy]. *)
Theorem sorting_rearranges_the_filtered_records
    (W : World) (targetUrl keyword sortBy : string) (l : list ArticleRecord) :
  gatherArticles W targetUrl = Fulfilled l ->
  exists out,
    scrapeNews W targetUrl keyword sortBy = Fulfilled out
    /\ Permutation (filterByKeyword keyword l) out
    /\ length out <= length l.
Proof.
  intros H. eexists. split; [apply scrapeNews_of_gathered, H|]. split.
  - apply sortArticles_perm.
  - rewrite <- (Permutation_length (sortArticles_perm W keyword sortBy _)).
    apply filterByKeyword_length.
Qed.

Lemma sorting_rearranges_the_filtered_records_witness :
  gatherArticles defaultSitesWorld EmptyString
  = Fulfilled [bbcStory; hackerNewsStory; hackerNewsBlank]
  /\ exists out,
      scrapeNews defaultSitesWorld EmptyString "unknown" "date" = Fulfilled out
      /\ Permutation
           (filterByKeyword "unknown" [bbcStory; hackerNewsStory; hackerNewsBlank])
           out
      /\ length out <= 3.
Proof.
  split; [reflexivity|].
  apply (sorting_rearranges_the_filtered_records defaultSitesWorld EmptyString
           "unknown" "date" [bbcStory; hackerNewsStory; hackerNewsBlank]).
  reflexivity.
Defined.

(** X4.  With a non-empty keyword every returned record contains it (up to
    case) in its title, author or source, under every [sortBy]. *)
Theorem returned_records_match_the_keyword
    (W : World) (targetUrl keyword sortBy : string) (out : list ArticleRecord) :
  isEmpty keyword = false ->
  scrapeNews W targetUrl keyword sortBy = Fulfilled out ->
  Forall (fun a => matchesKeyword (toLowerCase keyword) a = true) out.
Proof.
  intros Hk H. apply scrapeNews_gathered_inv in H as (l & _ & ->).
  apply sortArticles_Forall. unfold filterByKeyword. rewrite Hk. cbn [negb].
  apply Forall_forall. intros a Ha. now apply filter_In in Ha as [_ Ha].
Qed.

Lemma returned_records_match_the_keyword_witness :
  isEmpty "alice" = false
  /\ scrapeNews defaultSitesWorld EmptyString "alice" "default"
     = Fulfilled [hackerNewsStory]
  /\ Forall (fun a => matchesKeyword (toLowerCase "alice") a = true)
            [hackerNewsStory].
Proof.
  split; [reflexivity|]. split; [reflexivity|].
  apply (returned_records_match_the_keyword defaultSitesWorld EmptyString
           "alice" "default"); reflexivity.
Defined.

Lemma filter_filter' {A} (f g : A -> bool) (l : list A) :
  filter f (filter g l) = filter (fun x => f x && g x) l.
Proof.
  induction l as [|x l IH]; simpl; [reflexivity|].
  destruct (g x); simpl; rewrite ?andb_true_r, ?andb_false_r;
    [destruct (f x)|]; now rewrite IH.
Qed.

(** X5.  With a non-empty keyword and [sortBy = "relevance"], the result is
    the gathered records with the keyword in the title, followed by those
    that have it only in the author or the source, both groups in
    aggregation order. *)
Theorem relevance_puts_title_matches_before_other_matches
    (W : World) (targetUrl keyword : string) (l : list ArticleRecord) :
  isEmpty keyword = false ->
  gatherArticles W targetUrl = Fulfilled l ->
  scrapeNews W targetUrl keyword "relevance"
  = Fulfilled
      (filter (hasKeywordInTitle (toLowerCase keyword)) l
       ++ filter (fun a => negb (hasKeywordInTitle (toLowerCase keyword) a)
                           && matchesElsewhere (toLowerCase keyword) a) l).
Proof.
  intros Hk Hg. rewrite (scrapeNews_of_gathered W _ _ _ l Hg). f_equal.
  unfold sortArticles, filterByKeyword. rewrite Hk.
  cbn [String.eqb Ascii.eqb Bool.eqb negb andb].
  rewrite relevance_sort_partition, !filter_filter'. f_equal.
  - apply filter_ext. intros a. unfold matchesKeyword, hasKeywordInTitle.
    destruct (includes (toLowerCase (title a)) (toLowerCase keyword)); reflexivity.
  - apply filter_ext. intros a.
    unfold matchesKeyword, hasKeywordInTitle, matchesElsewhere.
    destruct (includes (toLowerCase (title a)) (toLowerCase keyword));
      reflexivity.
Qed.

Lemma relevance_puts_title_matches_before_other_matches_witness :
  isEmpty "bbc" = false
  /\ gatherArticles defaultSitesWorld EmptyString
     = Fulfilled [bbcStory; hackerNewsStory; hackerNewsBlank]
  /\ scrapeNews defaultSitesWorld EmptyString "bbc" "relevance"
     = Fulfilled [bbcStory].
Proof.
  split; [reflexivity|]. split; [reflexivity|].
  apply (relevance_puts_title_matches_before_other_matches defaultSitesWorld
           EmptyString "bbc" [bbcStory; hackerNewsStory; hackerNewsBlank]);
    reflexivity.
Defined.

(** ** The dynamic path as a whole *)

Lemma scrapeDynamicSite_fulfilled (W : World) (url : string) :
  exists l, scrapeDynamicSite W url = Fulfilled l.
Proof.
  unfold scrapeDynamicSite. destruct (scrapeDynamicSiteTry W url); eauto.
Qed.

Lemma scrapeDynamicSiteTry_inv (W : World) (url : string)
    (results : list ArticleRecord) :
  scrapeDynamicSiteTry W url = Fulfilled results ->
  exists parsed homepage found,
    new_URL W url None = Fulfilled parsed
    /\ isArticlePath (pathname parsed) = false
    /\ axios_get W url (Some 10000%Z) = Fulfilled homepage
    /\ collectLinks W (cheerio_load W homepage) (origin parsed) = Fulfilled found
    /\ results = map (degradedRecord (hostname parsed)) (firstn 8 found).
Proof.
  unfold scrapeDynamicSiteTry, isLikelyArticleUrl.
  destruct (new_URL W url None) as [parsed|] eqn:Hu; cbn [bind]; [|discriminate].
  destruct (isArticlePath (pathname parsed)) eqn:Hp.
  - rewrite scrapeArticleDetails_rejects. discriminate.
  - destruct (axios_get W url (Some 10000%Z)) as [homepage|] eqn:Hget;
      cbn [bind]; [|discriminate].
    unfold discoverLinks.
    destruct (collectLinks W _ _) as [found|] eqn:Hc; cbn [bind]; [|discriminate].
    intros Heq. exists parsed, homepage, found. repeat split; auto.
    injection Heq; auto.
Qed.

(** X6.  [scrapeDynamicSite] never rejects, and it never returns an
    extracted article: its result is either the one synthetic error record
    or at most 8 degraded records (anchor text longer than 10 characters as
    title, "Unknown" author and date, the host name as source). *)
Theorem dynamic_site_gives_error_record_or_degraded_records
    (W : World) (url : string) :
  exists l,
    scrapeDynamicSite W url = Fulfilled l
    /\ ((exists err, l = [errorRecord W url err])
        \/ (exists parsed,
               new_URL W url None = Fulfilled parsed
               /\ length l <= 8
               /\ Forall (degradedShape (hostname parsed)) l)).
Proof.
  unfold scrapeDynamicSite.
  destruct (scrapeDynamicSiteTry W url) as [results|err] eqn:Ht.
  - exists results. split; [reflexivity|]. right.
    apply scrapeDynamicSiteTry_inv in Ht
      as (parsed & homepage & found & Hu & _ & _ & Hc & ->).
    exists parsed. split; [assumption|]. split.
    + rewrite length_map. apply firstn_le_length.
    + apply collectLinks_invariant in Hc as (_ & _ & Hall).
      apply Forall_forall. intros a Ha.
      apply in_map_iff in Ha as (c & <- & Hc).
      apply In_firstn in Hc. rewrite Forall_forall in Hall.
      destruct (Hall _ Hc) as (el & h & _ & _ & _ & _ & _ & Hlen & _).
      unfold degradedShape, degradedRecord. cbn.
      repeat split; eauto.
  - exists [errorRecord W url err]. split; [reflexivity|]. left. now exists err.
Qed.

(** X7.  A call with a target URL never fails, whatever the URL and the
    network do, and returns at most 8 records. *)
Theorem scrapeNews_with_url_never_rejects
    (W : World) (targetUrl keyword sortBy : string) :
  isEmpty targetUrl = false ->
  exists out,
    scrapeNews W targetUrl keyword sortBy = Fulfilled out /\ length out <= 8.
Proof.
  intros Hne. rewrite scrapeNews_dynamic by assumption.
  destruct (scrapeDynamicSite_fulfilled W targetUrl) as [l Hl]. rewrite Hl.
  cbn [bind]. eexists. split; [reflexivity|].
  rewrite <- (Permutation_length (sortArticles_perm W keyword sortBy _)).
  pose proof (filterByKeyword_length keyword l).
  pose proof (scrapeDynamicSite_length W targetUrl l Hl). lia.
Qed.

Lemma scrapeNews_with_url_never_rejects_witness :
  isEmpty "no url at all" = false
  /\ exists out,
      scrapeNews classifierWorld "no url at all" EmptyString "date" = Fulfilled out
      /\ length out <= 8.
Proof.
  split; [reflexivity|].
  apply (scrapeNews_with_url_never_rejects classifierWorld "no url at all"
           EmptyString "date"); reflexivity.
Defined.

(** X8.  A fulfilled call returns at most 20 records without a target URL
    and at most 8 with one. *)
Theorem result_size_is_bounded
    (W : World) (targetUrl keyword sortBy : string) (out : list ArticleRecord) :
  scrapeNews W targetUrl keyword sortBy = Fulfilled out ->
  length out <= (if isEmpty targetUrl then 20 else 8).
Proof.
  intros H. apply scrapeNews_gathered_inv in H as (l & Hg & ->).
  rewrite <- (Permutation_length (sortArticles_perm W keyword sortBy _)).
  pose proof (filterByKeyword_length keyword l) as Hf.
  destruct (isEmpty targetUrl) eqn:Hne.
  - apply gatherArticles_length in Hg. lia.
  - unfold gatherArticles in Hg. rewrite Hne in Hg. cbn [negb] in Hg.
    destruct (scrapeDynamicSite W targetUrl) as [d|] eqn:Hd; cbn [bind] in Hg;
      [|discriminate].
    assert (d = l) by (injection Hg; auto). subst d.
    apply scrapeDynamicSite_length in Hd. lia.
Qed.

Lemma result_size_is_bounded_witness :
  scrapeNews defaultSitesWorld EmptyString EmptyString "default"
  = Fulfilled [bbcStory; hackerNewsStory; hackerNewsBlank]
  /\ length [bbcStory; hackerNewsStory; hackerNewsBlank] <= 20.
Proof.
  split; [reflexivity|].
  apply (result_size_is_bounded defaultSitesWorld EmptyString EmptyString
           "default"); reflexivity.
Defined.

(** X9.  A URL that the classifier takes for a single article never yields
    the article: the extraction throws, and the result is the synthetic
    error record whose [error] is "title is not defined". *)
Theorem article_url_always_yields_the_error_record
    (W : World) (url sortBy : string) (parsed : URLRecord) :
  isEmpty url = false ->
  new_URL W url None = Fulfilled parsed ->
  isArticlePath (pathname parsed) = true ->
  scrapeDynamicSite W url
  = Fulfilled [errorRecord W url (referenceError "title is not defined")]
  /\ scrapeNews W url EmptyString sortBy
     = Fulfilled [errorRecord W url (referenceError "title is not defined")]
  /\ error (errorRecord W url (referenceError "title is not defined"))
     = Some "title is not defined".
Proof.
  intros Hne Hu Hp.
  assert (Hdyn : scrapeDynamicSite W url
                 = Fulfilled [errorRecord W url
                                (referenceError "title is not defined")]).
  { unfold scrapeDynamicSite, scrapeDynamicSiteTry, isLikelyArticleUrl.
    rewrite Hu. cbn [bind]. rewrite Hp, scrapeArticleDetails_rejects.
    reflexivity. }
  split; [exact Hdyn|]. split; [|reflexivity].
  rewrite scrapeNews_dynamic by assumption. rewrite Hdyn. cbn [bind]. f_equal.
  apply sortArticles_short. simpl. lia.
Qed.

Lemma article_url_always_yields_the_error_record_witness :
  isEmpty "https://site.com/2024/05/01/story" = false
  /\ scrapeNews classifierWorld "https://site.com/2024/05/01/story" EmptyString
       "default"
     = Fulfilled [errorRecord classifierWorld "https://site.com/2024/05/01/story"
                    (referenceError "title is not defined")].
Proof.
  split; [reflexivity|].
  exact (proj1 (proj2
    (article_url_always_yields_the_error_record classifierWorld
       "https://site.com/2024/05/01/story" "default"
       (siteUrl "/2024/05/01/story") eq_refl eq_refl eq_refl))).
Defined.

Lemma foldM_visitAnchor_fulfils (W : World) (baseUrl : string) (l : list Node) :
  (forall el h, In el l -> nodeAttr el "href" = Some h ->
                startsWith h "http" = true) ->
  forall found, exists found',
    foldM (visitAnchor W baseUrl) l found = Fulfilled found'.
Proof.
  induction l as [|el l IH]; intros Habs found; simpl; [eauto|].
  assert (Hv : exists found1, visitAnchor W baseUrl found el = Fulfilled found1).
  { unfold visitAnchor. destruct (10 <=? length found); [eauto|].
    destruct (nodeAttr el "href") as [h|] eqn:Hh; [|eauto].
    destruct (_ && _); [|eauto].
    rewrite (Habs el h (or_introl eq_refl) Hh). cbn [bind]. eauto. }
  destruct Hv as [found1 ->]. cbn [bind].
  apply IH. intros el' h Hin. apply Habs. now right.
Qed.

(** X10.  Link discovery can fail only while resolving a relative link:
    on a page all of whose candidate anchors carry absolute ([http...])
    links it always returns a list. *)
Theorem discovery_fulfils_on_absolute_links
    (W : World) (doc : Doc) (baseUrl : string) :
  (forall el h,
      In el (flat_map (select doc) linkSelectors) ->
      nodeAttr el "href" = Some h -> startsWith h "http" = true) ->
  exists links,
    discoverLinks W doc baseUrl = Fulfilled links /\ length links <= 8.
Proof.
  intros Habs. unfold discoverLinks, collectLinks.
  destruct (foldM_visitAnchor_fulfils W baseUrl _ Habs []) as [found ->].
  cbn [bind]. eexists. split; [reflexivity | apply firstn_le_length].
Qed.

Lemma discovery_fulfils_on_absolute_links_witness :
  (forall el h,
      In el (flat_map (select absoluteDoc) linkSelectors) ->
      nodeAttr el "href" = Some h -> startsWith h "http" = true)
  /\ exists links,
      discoverLinks classifierWorld absoluteDoc "https://example.com"
      = Fulfilled links /\ length links <= 8.
Proof.
  assert (Habs : forall el h,
             In el (flat_map (select absoluteDoc) linkSelectors) ->
             nodeAttr el "href" = Some h -> startsWith h "http" = true).
  { intros el h Hin Hh. simpl in Hin.
    destruct Hin as [<-|[<-|[]]]; simpl in Hh; injection Hh as <-; reflexivity. }
  split; [exact Habs|].
  exact (discovery_fulfils_on_absolute_links classifierWorld absoluteDoc
           "https://example.com" Habs).
Defined.

(** ** The three adapters built on one text: BBC, The Verge, CNN *)

Section Adapters.
Variable W : World.

Lemma NoDup_snoc {A} (x : A) (l : list A) :
  ~ In x l -> NoDup l -> NoDup (l ++ [x]).
Proof.
  intros Hx Hl. apply (Permutation_NoDup (l := x :: l)).
  - apply Permutation_cons_append.
  - now constructor.
Qed.

Lemma fold_pushLink_Forall (accept : string -> bool) (prefix : string)
    (P : string -> Prop) (els : list Node) :
  (forall l, isEmpty l = false -> accept l = true ->
             P (if startsWith l "http" then l else (prefix ++ l)%string)) ->
  forall articleLinks,
    Forall P articleLinks ->
    Forall P (fold_left (pushLink accept prefix) els articleLinks).
Proof.
  intros HP. induction els as [|el els IH]; intros links Hl; simpl; [assumption|].
  apply IH. unfold pushLink.
  destruct (nodeAttr el "href") as [l|]; [|assumption].
  destruct (isEmpty l) eqn:He; cbn [negb andb]; [assumption|].
  destruct (accept l) eqn:Ha; cbn [andb]; [|assumption].
  destruct (length links <? 5); [|assumption].
  destruct (existsb _ links); [assumption|].
  apply Forall_app. split; [assumption|]. constructor; [|constructor].
  now apply HP.
Qed.

Lemma fold_pushLink_NoDup (accept : string -> bool) (prefix : string)
    (els : list Node) (articleLinks : list string) :
  NoDup articleLinks ->
  NoDup (fold_left (pushLink accept prefix) els articleLinks).
Proof.
  revert articleLinks. induction els as [|el els IH]; intros links Hl; simpl;
    [assumption|].
  apply IH. unfold pushLink.
  destruct (nodeAttr el "href") as [l|]; [|assumption].
  destruct (negb (isEmpty l) && accept l && (length links <? 5)); [|assumption].
  destruct (existsb _ links) eqn:Hex; [assumption|].
  apply NoDup_snoc; [|assumption]. intros Hin.
  assert (existsb
            (String.eqb (if startsWith l "http" then l else (prefix ++ l)%string))
            links = true).
  { apply existsb_exists. eexists. split; [exact Hin|]. apply String.eqb_refl. }
  congruence.
Qed.

Lemma adapterArticle_In (authorSelector authorDefault sourceDefault lnk : string)
    (r : ArticleRecord) :
  In r (adapterArticle W authorSelector authorDefault sourceDefault lnk) ->
  link r = Some lnk
  /\ (exists o, title r = orDefault o "No title")
  /\ (exists o, author r = orDefault o authorDefault)
  /\ (exists o, publicationDate r = orDefault o "Unknown")
  /\ (exists o, source r = orDefault o sourceDefault).
Proof.
  unfold adapterArticle. destruct (axios_get W lnk None); simpl; [|tauto].
  intros [<-|[]]. cbn. repeat split; eauto.
Qed.

Lemma orDefault_nonempty (o : option string) (d : string) :
  isEmpty d = false -> isEmpty (orDefault o d) = false.
Proof.
  intros Hd. unfold orDefault. destruct o as [s|]; [|assumption].
  destruct (isEmpty s) eqn:Hs; assumption.
Qed.

Lemma scrapeAdapter_inv (baseUrl selector : string) (accept : string -> bool)
    (prefix authorSelector authorDefault sourceDefault : string)
    (l : list ArticleRecord) :
  scrapeAdapter W baseUrl selector accept prefix authorSelector authorDefault
                sourceDefault = Fulfilled l ->
  exists homepage,
    axios_get W baseUrl None = Fulfilled homepage
    /\ l = flat_map (adapterArticle W authorSelector authorDefault sourceDefault)
                    (fold_left (pushLink accept prefix)
                               (select (cheerio_load W homepage) selector) []).
Proof.
  unfold scrapeAdapter. destruct (axios_get W baseUrl None) as [homepage|];
    cbn [bind]; [|discriminate].
  intros Heq. exists homepage. split; [reflexivity|]. injection Heq; auto.
Qed.

Lemma scrapeAdapter_populated (baseUrl selector : string) (accept : string -> bool)
    (prefix authorSelector authorDefault sourceDefault : string)
    (l : list ArticleRecord) :
  isEmpty authorDefault = false ->
  isEmpty sourceDefault = false ->
  scrapeAdapter W baseUrl selector accept prefix authorSelector authorDefault
                sourceDefault = Fulfilled l ->
  Forall populated l.
Proof.
  intros Ha Hs H. apply scrapeAdapter_inv in H as (homepage & _ & ->).
  apply Forall_forall. intros r Hr. apply in_flat_map in Hr as (lnk & Hlnk & Hr).
  apply adapterArticle_In in Hr as (Hl & [o1 Ht] & [o2 Hau] & [o3 Hd] & [o4 Hso]).
  assert (Hne : Forall (fun u => isEmpty u = false)
                  (fold_left (pushLink accept prefix)
                     (select (cheerio_load W homepage) selector) [])).
  { apply fold_pushLink_Forall; [|constructor].
    intros u Hu _. destruct (startsWith u "http"); [assumption|].
    destruct prefix; [assumption | reflexivity]. }
  rewrite Forall_forall in Hne. specialize (Hne _ Hlnk).
  unfold populated. rewrite Ht, Hau, Hd, Hso.
  repeat split; try (apply orDefault_nonempty; auto; reflexivity).
  exists lnk. now split.
Qed.

Lemma flat_map_adapter_links (authorSelector authorDefault sourceDefault : string)
    (links : list string) :
  NoDup links ->
  NoDup (map link (flat_map
                     (adapterArticle W authorSelector authorDefault sourceDefault)
                     links)).
Proof.
  induction links as [|lnk links IH]; intros Hnd; simpl; [constructor|].
  inversion Hnd as [|? ? Hnotin Hrest]; subst.
  rewrite map_app. unfold adapterArticle at 1.
  destruct (axios_get W lnk None); simpl; [|now apply IH].
  constructor; [|now apply IH].
  intros Hin. apply in_map_iff in Hin as (r & Hr & Hin).
  apply in_flat_map in Hin as (lnk' & Hlnk' & Hin).
  apply adapterArticle_In in Hin as (Hl & _). rewrite Hl in Hr.
  injection Hr as ->. contradiction.
Qed.

Lemma scrapeAdapter_distinct (baseUrl selector : string) (accept : string -> bool)
    (prefix authorSelector authorDefault sourceDefault : string)
    (l : list ArticleRecord) :
  scrapeAdapter W baseUrl selector accept prefix authorSelector authorDefault
                sourceDefault = Fulfilled l ->
  NoDup (map link l).
Proof.
  intros H. apply scrapeAdapter_inv in H as (homepage & _ & ->).
  apply flat_map_adapter_links, fold_pushLink_NoDup. constructor.
Qed.

End Adapters.

(** X11.  Every record of the BBC, Verge and CNN adapters has a non-empty
    title, link, author, publication date and source. *)
Theorem known_site_records_are_populated (W : World) (l : list ArticleRecord) :
  scrapeBBC W = Fulfilled l \/ scrapeVerge W = Fulfilled l
  \/ scrapeCNN W = Fulfilled l ->
  Forall populated l.
Proof.
  intros [H|[H|H]];
    (eapply scrapeAdapter_populated; [| |exact H]; reflexivity).
Qed.

Lemma known_site_records_are_populated_witness :
  scrapeBBC defaultSitesWorld = Fulfilled [bbcStory]
  /\ Forall populated [bbcStory].
Proof.
  split; [reflexivity|].
  apply (known_site_records_are_populated defaultSitesWorld [bbcStory]).
  left. reflexivity.
Defined.

(** X12.  Each of the BBC, Verge and CNN adapters returns at most 5
    records, and no two of them have the same link. *)
Theorem known_site_records_have_distinct_links
    (W : World) (l : list ArticleRecord) :
  scrapeBBC W = Fulfilled l \/ scrapeVerge W = Fulfilled l
  \/ scrapeCNN W = Fulfilled l ->
  length l <= 5 /\ NoDup (map link l).
Proof.
  intros [H|[H|H]];
    (split; [eapply scrapeAdapter_length | eapply scrapeAdapter_distinct];
     exact H).
Qed.

Lemma known_site_records_have_distinct_links_witness :
  scrapeBBC defaultSitesWorld = Fulfilled [bbcStory]
  /\ length [bbcStory] <= 5 /\ NoDup (map link [bbcStory]).
Proof.
  split; [reflexivity|].
  apply (known_site_records_have_distinct_links defaultSitesWorld [bbcStory]).
  left. reflexivity.
Defined.

(** X13.  No record of the BBC adapter links to a live page or to a
    fragment: its link contains neither "/live/" nor "#". *)
Theorem bbc_records_skip_live_pages_and_fragments
    (W : World) (l : list ArticleRecord) :
  scrapeBBC W = Fulfilled l ->
  Forall (fun a => exists u, link a = Some u
                             /\ includes u "/live/" = false
                             /\ includes u "#" = false) l.
Proof.
  intros H. apply scrapeAdapter_inv in H as (homepage & _ & ->).
  apply Forall_forall. intros r Hr. apply in_flat_map in Hr as (lnk & Hlnk & Hr).
  apply adapterArticle_In in Hr as (Hl & _).
  exists lnk. split; [assumption|].
  assert (Hall : Forall (fun u => includes u "/live/" = false
                                  /\ includes u "#" = false)
                   (fold_left
                      (pushLink (fun l => negb (includes l "/live/")
                                          && negb (includes l "#"))
                                "https://www.bbc.com")
                      (select (cheerio_load W homepage) "a.gs-c-promo-heading")
                      [])).
  { apply fold_pushLink_Forall; [|constructor].
    intros u _ Hacc. apply andb_true_iff in Hacc as [Hlive Hhash].
    apply negb_true_iff in Hlive, Hhash.
    destruct (startsWith u "http"); [now split|].
    split; cbn; [rewrite Hlive | rewrite Hhash]; reflexivity. }
  rewrite Forall_forall in Hall. exact (Hall _ Hlnk).
Qed.

Lemma bbc_records_skip_live_pages_and_fragments_witness :
  scrapeBBC defaultSitesWorld = Fulfilled [bbcStory]
  /\ Forall (fun a => exists u, link a = Some u
                                /\ includes u "/live/" = false
                                /\ includes u "#" = false) [bbcStory].
Proof.
  split; [reflexivity|].
  apply (bbc_records_skip_live_pages_and_fragments defaultSitesWorld [bbcStory]).
  reflexivity.
Defined.

(** ** The Hacker News adapter *)

Lemma mapM_rejects {A B} (f : A -> Outcome B) (l : list A) (a : A) :
  In a l -> isRejected (f a) = true -> isRejected (mapM f l) = true.
Proof.
  induction l as [|x l IH]; simpl; [tauto|].
  intros [->|Hin] Hrej.
  - destruct (f a); [discriminate | reflexivity].
  - destruct (f x); cbn [bind]; [|reflexivity].
    specialize (IH Hin Hrej). destruct (mapM f l); [discriminate | reflexivity].
Qed.

Lemma scrapeNews_default_isRejected (W : World) (keyword sortBy : string) :
  isRejected (scrapeNews W EmptyString keyword sortBy)
  = isRejected (scrapeBBC W) || isRejected (scrapeVerge W)
    || isRejected (scrapeCNN W) || isRejected (scrapeHackerNews W).
Proof.
  unfold scrapeNews, gatherArticles, promiseAll4. cbn [isEmpty negb].
  destruct (scrapeBBC W), (scrapeVerge W), (scrapeCNN W), (scrapeHackerNews W);
    reflexivity.
Qed.

(** X14.  One row of the Hacker News page whose link is not a valid URL
    makes the whole adapter reject, and with it every call without a target
    URL, wherever the row stands on the page (also beyond the five rows
    that would be kept). *)
Theorem hackerNews_invalid_link_fails_the_whole_call
    (W : World) (data h : string) (el : Node) (e : JsError) :
  axios_get W "https://news.ycombinator.com/" None = Fulfilled data ->
  In el (select (cheerio_load W data) ".athing") ->
  attr (find [el] ".titleline a") "href" = Some h ->
  isEmpty h = false ->
  new_URL W h (Some "https://news.ycombinator.com/") = Rejected e ->
  isRejected (scrapeHackerNews W) = true
  /\ forall keyword sortBy,
       isRejected (scrapeNews W EmptyString keyword sortBy) = true.
Proof.
  intros Hget Hin Hh Hne Hurl.
  assert (Hrow : isRejected (hackerNewsRow W "https://news.ycombinator.com/" el)
                 = true).
  { unfold hackerNewsRow. rewrite Hh. unfold truthy, orDefault. rewrite Hne.
    cbn [negb]. rewrite Hurl. reflexivity. }
  assert (Hhn : isRejected (scrapeHackerNews W) = true).
  { unfold scrapeHackerNews. rewrite Hget. cbn [bind].
    pose proof (mapM_rejects (hackerNewsRow W "https://news.ycombinator.com/")
                  _ el Hin Hrow) as Hm.
    destruct (mapM _ _); [discriminate | reflexivity]. }
  split; [exact Hhn|]. intros keyword sortBy.
  rewrite scrapeNews_default_isRejected, Hhn. apply orb_true_r.
Qed.

Lemma hackerNews_invalid_link_fails_the_whole_call_witness :
  length (select (cheerio_load brokenRowWorld "hn-six-rows") ".athing") = 6
  /\ isRejected (scrapeHackerNews brokenRowWorld) = true
  /\ isRejected (scrapeNews brokenRowWorld EmptyString EmptyString "default") = true.
Proof.
  split; [reflexivity|].
  destruct (hackerNews_invalid_link_fails_the_whole_call brokenRowWorld
              "hn-six-rows" "http://[" (athingRow "6. " "Sixth" "http://[")
              (typeError "Invalid URL") eq_refl
              (or_intror (or_intror (or_intror (or_intror (or_intror
                 (or_introl eq_refl))))))
              eq_refl eq_refl eq_refl) as [Hhn Hnews].
  split; [exact Hhn | apply Hnews].
Defined.

Ltac default_nonempty :=
  match goal with
  | |- isEmpty (if ?c then _ else _) = false =>
      let E := fresh "E" in destruct c eqn:E; [reflexivity | exact E]
  | |- isEmpty (orDefault _ _) = false => apply orDefault_nonempty; reflexivity
  end.

Lemma hackerNewsRow_fields (W : World) (url : string) (el : Node)
    (a : ArticleRecord) :
  hackerNewsRow W url el = Fulfilled a ->
  isEmpty (author a) = false
  /\ isEmpty (publicationDate a) = false
  /\ (truthy (link a) = false -> source a = "Unknown")
  /\ content a = None /\ error a = None.
Proof.
  unfold hackerNewsRow.
  destruct (truthy (attr (find [el] ".titleline a") "href")) eqn:Ht.
  - destruct (new_URL W _ _); cbn [bind]; [|discriminate].
    intros [= <-]. cbn [author publicationDate link source content error].
    split; [default_nonempty|].
    split; [default_nonempty|].
    split; [|split; reflexivity].
    intros Hf. pose proof (eq_trans (eq_sym Hf) Ht) as Hc. discriminate Hc.
  - cbn [bind]. intros [= <-].
    cbn [author publicationDate link source content error].
    split; [default_nonempty|].
    split; [default_nonempty|].
    split; [|split; reflexivity].
    intros _. reflexivity.
Qed.

(** X15.  The Hacker News adapter returns at most 5 records; each has a
    non-empty author and publication date ("Unknown" when the page gives
    none), and a row without a link has the source "Unknown". *)
Theorem hackerNews_records_have_author_and_date
    (W : World) (l : list ArticleRecord) :
  scrapeHackerNews W = Fulfilled l ->
  length l <= 5
  /\ Forall (fun a => isEmpty (author a) = false
                      /\ isEmpty (publicationDate a) = false
                      /\ (truthy (link a) = false -> source a = "Unknown")
                      /\ content a = None /\ error a = None) l.
Proof.
  intros H. split; [now apply (scrapeHackerNews_length W)|].
  revert H. unfold scrapeHackerNews.
  destruct (axios_get W "https://news.ycombinator.com/" None); cbn [bind];
    [|discriminate].
  destruct (mapM _ _) as [news|] eqn:Hm; cbn [bind]; [|discriminate].
  intros Heq. assert (Hl : firstn 5 news = l) by (injection Heq; auto).
  subst l. apply Forall_firstn.
  eapply mapM_Forall; [|exact Hm]. intros el r. apply hackerNewsRow_fields.
Qed.

Lemma hackerNews_records_have_author_and_date_witness :
  scrapeHackerNews defaultSitesWorld = Fulfilled [hackerNewsStory; hackerNewsBlank]
  /\ length [hackerNewsStory; hackerNewsBlank] <= 5.
Proof.
  split; [reflexivity|].
  exact (proj1 (hackerNews_records_have_author_and_date defaultSitesWorld
                  [hackerNewsStory; hackerNewsBlank] eq_refl)).
Defined.

(** ** More on the ["date"] sort *)

Lemma hasTime_unordered (W : World) (t : Z) (a b : ArticleRecord) :
  hasTime W t a = true -> hasTime W t b = true ->
  ArraySort.precedes (dateComparator W) a b = false.
Proof.
  rewrite date_precedes. unfold hasTime.
  destruct (dateOf W a) as [x|]; [|discriminate].
  destruct (dateOf W b) as [y|]; [|discriminate].
  intros Hx Hy. apply Z.eqb_eq in Hx, Hy. subst. apply Z.ltb_irrefl.
Qed.

(** X16.  The ["date"] sort keeps records with the same time value in the
    order they had. *)
Theorem date_sort_keeps_the_order_of_equal_dates
    (W : World) (keyword : string) (t : Z) (l : list ArticleRecord) :
  filter (hasTime W t) (sortArticles W keyword "date" l)
  = filter (hasTime W t) l.
Proof.
  change (sortArticles W keyword "date" l)
    with (ArraySort.sort (dateComparator W) l).
  apply (sort_stable (dateComparator W) (date_precedes_asym W)
           (date_precedes_negtrans W) (hasTime W t) (hasTime_unordered W t)).
Qed.

Lemma filter_all {A} (p : A -> bool) (l : list A) :
  Forall (fun a => p a = true) l -> filter p l = l.
Proof.
  induction 1 as [|a l Ha _ IH]; simpl; [reflexivity|]. now rewrite Ha, IH.
Qed.

(** X17.  When no record's date parses (as on the dynamic path, whose
    records are dated "Unknown"), the ["date"] sort leaves the sequence as
    it is. *)
Theorem date_sort_is_identity_without_parseable_dates
    (W : World) (keyword : string) (l : list ArticleRecord) :
  Forall (fun a => unparseable W a = true) l ->
  sortArticles W keyword "date" l = l.
Proof.
  intros Hall.
  change (sortArticles W keyword "date" l)
    with (ArraySort.sort (dateComparator W) l).
  rewrite <- (filter_all (unparseable W) l Hall) at 2.
  rewrite <- (sort_stable (dateComparator W) (date_precedes_asym W)
                (date_precedes_negtrans W) (unparseable W)
                (unparseable_unordered W) l).
  symmetry. apply filter_all.
  eapply Permutation_Forall; [apply sort_perm | exact Hall].
Qed.

Lemma date_sort_is_identity_without_parseable_dates_witness :
  Forall (fun a => unparseable datesWorld a = true)
         [dated "b" "Unknown"; dated "a" "yesterday"]
  /\ sortArticles datesWorld EmptyString "date"
       [dated "b" "Unknown"; dated "a" "yesterday"]
     = [dated "b" "Unknown"; dated "a" "yesterday"].
Proof.
  assert (H : Forall (fun a => unparseable datesWorld a = true)
                [dated "b" "Unknown"; dated "a" "yesterday"])
    by (repeat constructor).
  split; [exact H|].
  exact (date_sort_is_identity_without_parseable_dates datesWorld EmptyString
           [dated "b" "Unknown"; dated "a" "yesterday"] H).
Defined.

(** ** The route [GET /api/news] *)

Lemma gatherArticles_dynamic (W : World) (u : string) :
  isEmpty u = false ->
  exists l, gatherArticles W u = Fulfilled l /\ length l <= 8.
Proof.
  intros Hne. unfold gatherArticles. rewrite Hne. cbn [negb].
  destruct (scrapeDynamicSite_fulfilled W u) as [l Hl]. rewrite Hl. cbn [bind].
  exists l. split; [reflexivity|]. exact (scrapeDynamicSite_length W u l Hl).
Qed.

Lemma gatherArticles_default_isRejected (W : World) :
  isRejected (gatherArticles W EmptyString)
  = isRejected (scrapeBBC W) || isRejected (scrapeVerge W)
    || isRejected (scrapeCNN W) || isRejected (scrapeHackerNews W).
Proof.
  unfold gatherArticles, promiseAll4. cbn [isEmpty negb].
  destruct (scrapeBBC W), (scrapeVerge W), (scrapeCNN W), (scrapeHackerNews W);
    reflexivity.
Qed.

(** X18.  A request that carries a non-empty [url] (given once) is answered
    with status 200 and a list of at most 8 records when its keyword is
    absent or a single string, whatever the URL, the keyword, [sortBy] and
    the network are; when the keyword is repeated (an array or object) it is
    answered with status 500 and the message of the TypeError. *)
Theorem api_with_url_answers_200_unless_keyword_is_structured
    (W : World) (query : Query) (u : string) :
  queryUrl query = Some u ->
  isEmpty u = false ->
  if keywordIsStructured query
  then status (apiNews W query) = 500
       /\ body (apiNews W query)
          = FailureBody "Failed to scrape news"
                        "keyword.toLowerCase is not a function" []
  else status (apiNews W query) = 200
       /\ exists articles,
           body (apiNews W query) = ArticlesBody articles
           /\ length articles <= 8.
Proof.
  intros Hq Hne. unfold apiNews, keywordIsStructured. rewrite Hq.
  unfold orDefault. rewrite Hne.
  destruct (gatherArticles_dynamic W u Hne) as (l & Hg & Hlen).
  assert (Hfilter : forall k, length (filterByKeyword k l) <= 8)
    by (intros k; pose proof (filterByKeyword_length k l); lia).
  assert (Hok : forall k v,
             exists articles,
               scrapeNewsFromQuery W u (QString k) v = Fulfilled articles
               /\ length articles <= 8).
  { intros k [s|]; unfold scrapeNewsFromQuery, scrapeNews; rewrite Hg; cbn [bind];
      eexists; (split; [reflexivity|]); [|apply Hfilter].
    rewrite <- (Permutation_length (sortArticles_perm W k s _)). apply Hfilter. }
  destruct (queryKeyword query) as [[k|]|]; cbn [withDefault].
  - destruct (Hok k (withDefault (querySortBy query) "default"))
      as (articles & -> & Ha). cbn. eauto.
  - unfold scrapeNewsFromQuery. rewrite Hg. cbn. split; reflexivity.
  - destruct (Hok EmptyString (withDefault (querySortBy query) "default"))
      as (articles & -> & Ha). cbn. eauto.
Qed.

Lemma api_with_url_answers_200_unless_keyword_is_structured_witness :
  isEmpty "https://example.com/" = false
  /\ status (apiNews (listingDownWorld exampleClock)
               (mkQuery (Some "https://example.com/") None (Some QStructured)))
     = 200
  /\ status (apiNews (listingDownWorld exampleClock)
               (mkQuery (Some "https://example.com/") (Some QStructured) None))
     = 500.
Proof.
  split; [reflexivity|]. split.
  - exact (proj1 (api_with_url_answers_200_unless_keyword_is_structured
                    (listingDownWorld exampleClock)
                    (mkQuery (Some "https://example.com/") None (Some QStructured))
                    "https://example.com/" eq_refl eq_refl)).
  - exact (proj1 (api_with_url_answers_200_unless_keyword_is_structured
                    (listingDownWorld exampleClock)
                    (mkQuery (Some "https://example.com/") (Some QStructured) None)
                    "https://example.com/" eq_refl eq_refl)).
Defined.

(** X19.  A request without [url] (absent or empty) is answered with
    status 500 exactly when one of the four adapters rejects or the keyword
    is repeated (an array or object), and with status 200 otherwise,
    whatever [sortBy] is. *)
Theorem api_without_url_answers_500_iff_adapter_rejects_or_keyword_is_structured
    (W : World) (query : Query) :
  truthy (queryUrl query) = false ->
  status (apiNews W query)
  = if isRejected (scrapeBBC W) || isRejected (scrapeVerge W)
       || isRejected (scrapeCNN W) || isRejected (scrapeHackerNews W)
       || keywordIsStructured query
    then 500 else 200.
Proof.
  intros Hq. unfold apiNews, keywordIsStructured.
  assert (Hu : orDefault (queryUrl query) EmptyString = EmptyString).
  { unfold truthy in Hq. unfold orDefault.
    destruct (queryUrl query) as [s|]; [|reflexivity].
    destruct s; [reflexivity | discriminate]. }
  rewrite Hu, <- (gatherArticles_default_isRejected W).
  assert (Hstr : forall k v,
             status match scrapeNewsFromQuery W EmptyString (QString k) v with
                    | Fulfilled articles =>
                        {| status := 200; body := ArticlesBody articles |}
                    | Rejected err =>
                        {| status := 500;
                           body := FailureBody "Failed to scrape news"
                                               (message err) [] |}
                    end
             = if isRejected (gatherArticles W EmptyString) || false
               then 500 else 200).
  { intros k [s|]; unfold scrapeNewsFromQuery, scrapeNews;
      destruct (gatherArticles W EmptyString); reflexivity. }
  destruct (queryKeyword query) as [[k|]|]; cbn [withDefault].
  - apply Hstr.
  - unfold scrapeNewsFromQuery. rewrite orb_true_r.
    destruct (gatherArticles W EmptyString); reflexivity.
  - apply Hstr.
Qed.

Lemma api_without_url_answers_500_iff_adapter_rejects_or_keyword_is_structured_witness :
  truthy (queryUrl (mkQuery None (Some (QString "bbc")) None)) = false
  /\ status (apiNews bbcDownWorld (mkQuery None (Some (QString "bbc")) None)) = 500
  /\ status (apiNews defaultSitesWorld (mkQuery None (Some (QString "bbc")) None))
     = 200
  /\ status (apiNews defaultSitesWorld (mkQuery None (Some QStructured) None))
     = 500.
Proof.
  split; [reflexivity|]. split; [|split].
  - exact (api_without_url_answers_500_iff_adapter_rejects_or_keyword_is_structured
             bbcDownWorld (mkQuery None (Some (QString "bbc")) None) eq_refl).
  - exact (api_without_url_answers_500_iff_adapter_rejects_or_keyword_is_structured
             defaultSitesWorld (mkQuery None (Some (QString "bbc")) None) eq_refl).
  - exact (api_without_url_answers_500_iff_adapter_rejects_or_keyword_is_structured
             defaultSitesWorld (mkQuery None (Some QStructured) None) eq_refl).
Defined.

(** ** Further edge behaviour *)

Lemma string_app_assoc (a b c : string) :
  ((a ++ b) ++ c)%string = (a ++ b ++ c)%string.
Proof. induction a as [|x a IH]; simpl; [reflexivity | now rewrite IH]. Qed.

Lemma matchHere_extend (p : list atom) (s post : string) :
  matchHere p s = true -> matchHere p (s ++ post) = true.
Proof.
  revert s. induction p as [|a p IH]; intros s H; [reflexivity|].
  destruct s as [|c s]; [discriminate|]. simpl in *.
  apply andb_true_iff in H as [H1 H2]. now rewrite H1, IH.
Qed.

Lemma regexTest_extend (p : list atom) (pre s post : string) :
  regexTest p s = true -> regexTest p (pre ++ s ++ post) = true.
Proof.
  intros H. apply regexTest_inv in H as (pre' & rest & -> & Hm).
  replace (pre ++ (pre' ++ rest) ++ post)%string
    with ((pre ++ pre') ++ (rest ++ post))%string
    by (now rewrite !string_app_assoc).
  apply regexTest_app, matchHere_extend, Hm.
Qed.

Lemma includes_extend (pre s post sub : string) :
  includes s sub = true -> includes (pre ++ s ++ post) sub = true.
Proof.
  intros H. apply includes_inv in H as (pre' & post' & ->).
  replace (pre ++ (pre' ++ sub ++ post') ++ post)%string
    with ((pre ++ pre') ++ sub ++ (post' ++ post))%string
    by (now rewrite !string_app_assoc).
  apply includes_app.
Qed.

(** X20.  The classifier looks for its patterns anywhere in the path: a
    path that contains an article-like path is article-like. *)
Theorem article_paths_stay_article_like_inside_longer_paths
    (pre p post : string) :
  isArticlePath p = true -> isArticlePath (pre ++ p ++ post) = true.
Proof.
  unfold isArticlePath. rewrite !orb_true_iff, !existsb_exists.
  intros [[H|H]|(w & Hw & H)].
  - left; left. now apply includes_extend.
  - left; right. now apply regexTest_extend.
  - right. exists w. split; [assumption|]. now apply regexTest_extend.
Qed.

Lemma article_paths_stay_article_like_inside_longer_paths_witness :
  isArticlePath "/news/" = true
  /\ isArticlePath ("/en-gb" ++ "/news/" ++ "uk/some-page.html") = true.
Proof.
  split; [reflexivity|].
  apply (article_paths_stay_article_like_inside_longer_paths "/en-gb" "/news/"
           "uk/some-page.html"); reflexivity.
Defined.

(** X21.  Once 10 links are collected the loop looks at no further anchor:
    [foundLinks] stays as it is and no later link is resolved, so a later
    link that is no URL cannot fail the discovery. *)
Theorem full_set_ignores_the_remaining_anchors
    (W : World) (baseUrl : string) (els : list Node) (foundLinks : list LinkObj) :
  10 <= length foundLinks ->
  foldM (visitAnchor W baseUrl) els foundLinks = Fulfilled foundLinks.
Proof.
  intros Hfull. induction els as [|el els IH]; simpl; [reflexivity|].
  unfold visitAnchor at 1. apply Nat.leb_le in Hfull. rewrite Hfull.
  cbn [bind]. exact IH.
Qed.

Lemma full_set_ignores_the_remaining_anchors_witness :
  10 <= length tenLinks
  /\ isRejected (visitAnchor classifierWorld "https://example.com" []
                   unresolvableAnchor) = true
  /\ foldM (visitAnchor classifierWorld "https://example.com")
           [unresolvableAnchor] tenLinks
     = Fulfilled tenLinks.
Proof.
  split; [apply le_n|]. split; [reflexivity|].
  apply (full_set_ignores_the_remaining_anchors classifierWorld
           "https://example.com" [unresolvableAnchor] tenLinks).
  apply le_n.
Defined.

Lemma flat_map_adapter_fetchable (W : World)
    (authorSelector authorDefault sourceDefault : string) (links : list string) :
  map link (flat_map (adapterArticle W authorSelector authorDefault sourceDefault)
                     links)
  = map Some (filter (fetchable W) links).
Proof.
  induction links as [|u links IH]; simpl; [reflexivity|].
  rewrite map_app, IH. unfold adapterArticle at 1, fetchable at 2.
  destruct (axios_get W u None); reflexivity.
Qed.

Lemma scrapeAdapter_links (W : World) (baseUrl selector : string)
    (accept : string -> bool)
    (prefix authorSelector authorDefault sourceDefault homepage : string) :
  axios_get W baseUrl None = Fulfilled homepage ->
  exists l,
    scrapeAdapter W baseUrl selector accept prefix authorSelector authorDefault
                  sourceDefault = Fulfilled l
    /\ map link l
       = map Some (filter (fetchable W)
                          (adapterLinks W homepage selector accept prefix)).
Proof.
  intros Hget. unfold scrapeAdapter. rewrite Hget. cbn [bind].
  eexists. split; [reflexivity|]. apply flat_map_adapter_fetchable.
Qed.

(** X22.  Once its listing page is fetched, the BBC adapter cannot fail:
    it returns one record for each collected link whose page can be
    fetched, in the order of the links, and skips the links whose page
    cannot. *)
Theorem bbc_skips_articles_that_cannot_be_fetched (W : World) (homepage : string) :
  axios_get W "https://www.bbc.com/news" None = Fulfilled homepage ->
  exists l,
    scrapeBBC W = Fulfilled l
    /\ map link l
       = map Some
           (filter (fetchable W)
              (adapterLinks W homepage "a.gs-c-promo-heading"
                 (fun u => negb (includes u "/live/") && negb (includes u "#"))
                 "https://www.bbc.com")).
Proof. intros H. now apply scrapeAdapter_links. Qed.

Lemma bbc_skips_articles_that_cannot_be_fetched_witness :
  axios_get defaultSitesWorld "https://www.bbc.com/news" None
  = Fulfilled "bbc-listing"
  /\ exists l, scrapeBBC defaultSitesWorld = Fulfilled l
               /\ map link l = [Some "https://www.bbc.com/news/articles/c1"].
Proof.
  split; [reflexivity|].
  destruct (bbc_skips_articles_that_cannot_be_fetched defaultSitesWorld
              "bbc-listing" eq_refl) as (l & Hl & Hlinks).
  exists l. split; [exact Hl | exact Hlinks].
Defined.

(** X23.  The same holds for the Verge and CNN adapters: a fetched listing
    page gives one record per collected link whose page can be fetched, in
    order; the CNN article that cannot be fetched is skipped. *)
Theorem verge_and_cnn_skip_articles_that_cannot_be_fetched
    (W : World) (verge cnn : string) :
  axios_get W "https://www.theverge.com/" None = Fulfilled verge ->
  axios_get W "https://edition.cnn.com/" None = Fulfilled cnn ->
  (exists l,
      scrapeVerge W = Fulfilled l
      /\ map link l
         = map Some
             (filter (fetchable W)
                (adapterLinks W verge "a[data-analytics-link='article']"
                   (fun _ => true) "https://www.theverge.com")))
  /\ (exists l,
         scrapeCNN W = Fulfilled l
         /\ map link l
            = map Some
                (filter (fetchable W)
                   (adapterLinks W cnn "a[href^='/202']"
                      (fun _ => true) "https://edition.cnn.com"))).
Proof. intros Hv Hc. split; now apply scrapeAdapter_links. Qed.

Lemma verge_and_cnn_skip_articles_that_cannot_be_fetched_witness :
  adapterLinks defaultSitesWorld "cnn-listing" "a[href^='/202']" (fun _ => true)
               "https://edition.cnn.com"
  = ["https://edition.cnn.com/2024/05/01/world/x"]
  /\ exists l, scrapeCNN defaultSitesWorld = Fulfilled l /\ map link l = [].
Proof.
  split; [reflexivity|].
  destruct (verge_and_cnn_skip_articles_that_cannot_be_fetched defaultSitesWorld
              "verge-listing" "cnn-listing" eq_refl eq_refl)
    as (_ & l & Hl & Hlinks).
  exists l. split; [exact Hl | exact Hlinks].
Defined.
